(** * Door-access authorization subsystem: a shallow embedding

    The development follows the TypeScript sources:
    - [src/admin/admin.service.ts]  (code generation, issuing, encoding),
    - [src/door/door.router.ts]     (the [/door/generate] and [/door/verify]
                                     routes),
    - [src/door/room.service.ts]    (room sharing and the permission evaluator),
    - [src/app.ts]                  (the guarded actuation routes).

    JavaScript numbers that go through bit operators are modelled as [Z]
    with the 32-bit wrap-around written out; byte buffers are lists of [Z]
    in [0, 256); strings are [String.string]; database tables are lists of
    rows in table order; code that throws is a function into a sum type, and
    code that also writes to the database threads the database through. *)

From Stdlib Require Import ZArith List String Ascii Bool Lia Arith.
Import ListNotations.

Local Open Scope Z_scope.

(* ================================================================== *)
(** ** JavaScript 32-bit integer operators *)
(* ================================================================== *)

Module JS.

(** [ToInt32]: reduce modulo 2^32 into the signed range. *)
Definition toInt32 (x : Z) : Z :=
  (x + 2147483648) mod 4294967296 - 2147483648.

(** [a & b] *)
Definition band (a b : Z) : Z := toInt32 (Z.land (toInt32 a) (toInt32 b)).

(** [a | b] *)
Definition bor (a b : Z) : Z := toInt32 (Z.lor (toInt32 a) (toInt32 b)).

(** [a << n]: the shift count is taken modulo 32. *)
Definition shl (a n : Z) : Z := toInt32 (Z.shiftl (toInt32 a) (n mod 32)).

(** [a >> n]: sign-propagating right shift, count modulo 32. *)
Definition sar (a n : Z) : Z := Z.shiftr (toInt32 a) (n mod 32).

(** [a % b] on integers: the sign follows the dividend. *)
Definition rem (a b : Z) : Z := Z.rem a b.

(** [buf[i]] on a byte buffer, as seen by a bit operator: an index out
    of range reads [undefined], which [ToInt32] turns into 0. *)
Definition index (buf : list Z) (i : Z) : Z :=
  if i <? 0 then 0 else nth (Z.to_nat i) buf 0.

(** Code units of a string, as bytes (one byte per character). *)
Fixpoint bytes_of_string (s : string) : list Z :=
  match s with
  | EmptyString => []
  | String c s' => Z.of_N (N_of_ascii c) :: bytes_of_string s'
  end.

End JS.

(* ================================================================== *)
(** ** The runtime's cryptographic primitives

    [crypto.createHmac('sha1', key)] and [Buffer.from(s, 'base64')] belong
    to the Node.js runtime, not to the repository.  They are given here as
    executable definitions after FIPS 180-4 (SHA-1), RFC 2104 (HMAC) and
    the runtime's lenient base64 reader, and are checked against the
    published test vectors below. *)
(* ================================================================== *)

Module Sha1.

Definition w32 (x : Z) : Z := x mod 4294967296.

Definition rotl (n x : Z) : Z :=
  w32 (Z.lor (Z.shiftl x n) (Z.shiftr x (32 - n))).

(** Big-endian serialisation of a number on [n] bytes. *)
Fixpoint be_bytes (n : nat) (x : Z) : list Z :=
  match n with
  | O => []
  | S n' => (Z.shiftr x (8 * Z.of_nat n')) mod 256 :: be_bytes n' x
  end.

Definition be_word (b0 b1 b2 b3 : Z) : Z :=
  b0 * 16777216 + b1 * 65536 + b2 * 256 + b3.

(** Message padding: a [0x80] byte, zeros up to 56 modulo 64, then the
    bit length on 8 bytes. *)
Definition pad (msg : list Z) : list Z :=
  let len := Z.of_nat (List.length msg) in
  let zeros := Z.to_nat ((55 - len) mod 64) in
  msg ++ 128 :: repeat 0 zeros ++ be_bytes 8 (8 * len).

Fixpoint words (fuel : nat) (bs : list Z) : list Z :=
  match fuel, bs with
  | S fuel', b0 :: b1 :: b2 :: b3 :: rest =>
      be_word b0 b1 b2 b3 :: words fuel' rest
  | _, _ => []
  end.

(** The message schedule, produced from a sliding window holding the 16
    most recent words (oldest first). *)
Fixpoint schedule (n : nat) (win : list Z) : list Z :=
  match n with
  | O => []
  | S n' =>
      let w := rotl 1 (Z.lxor (Z.lxor (nth 13 win 0) (nth 8 win 0))
                              (Z.lxor (nth 2 win 0) (nth 0 win 0))) in
      hd 0 win :: schedule n' (tl win ++ [w])
  end.

Definition state : Type := Z * Z * Z * Z * Z.

Definition init : state :=
  (1732584193, 4023233417, 2562383102, 271733878, 3285377520).

Definition f (t : nat) (b c d : Z) : Z :=
  if (t <? 20)%nat then Z.lor (Z.land b c) (Z.land (w32 (Z.lnot b)) d)
  else if (t <? 40)%nat then Z.lxor (Z.lxor b c) d
  else if (t <? 60)%nat
       then Z.lor (Z.lor (Z.land b c) (Z.land b d)) (Z.land c d)
  else Z.lxor (Z.lxor b c) d.

Definition k (t : nat) : Z :=
  if (t <? 20)%nat then 1518500249
  else if (t <? 40)%nat then 1859775393
  else if (t <? 60)%nat then 2400959708
  else 3395469782.

Definition round (st : state) (tw : nat * Z) : state :=
  let '(a, b, c, d, e) := st in
  let '(t, w) := tw in
  (w32 (rotl 5 a + f t b c d + e + k t + w), a, rotl 30 b, c, d).

Definition compress (h : state) (block : list Z) : state :=
  let ws := schedule 80 (words 16 block) in
  let '(a, b, c, d, e) := fold_left round (combine (seq 0 80) ws) h in
  let '(h0, h1, h2, h3, h4) := h in
  (w32 (h0 + a), w32 (h1 + b), w32 (h2 + c), w32 (h3 + d), w32 (h4 + e)).

Fixpoint blocks (fuel : nat) (h : state) (bs : list Z) : state :=
  match fuel with
  | O => h
  | S fuel' =>
      match bs with
      | [] => h
      | _ => blocks fuel' (compress h (firstn 64 bs)) (skipn 64 bs)
      end
  end.

Definition digest (msg : list Z) : list Z :=
  let p := pad msg in
  let '(h0, h1, h2, h3, h4) := blocks (List.length p) init p in
  be_bytes 4 h0 ++ be_bytes 4 h1 ++ be_bytes 4 h2 ++ be_bytes 4 h3
    ++ be_bytes 4 h4.

End Sha1.

Module Hmac.

Definition block_size : nat := 64.

Definition normalise_key (key : list Z) : list Z :=
  let k :=
    if (block_size <? List.length key)%nat then Sha1.digest key else key in
  k ++ repeat 0 (block_size - List.length k).

Definition hmac_sha1 (key msg : list Z) : list Z :=
  let k := normalise_key key in
  let ipad := map (Z.lxor 54) k in
  let opad := map (Z.lxor 92) k in
  Sha1.digest (opad ++ Sha1.digest (ipad ++ msg)).

End Hmac.

Module Base64.

(** Value of a base64 character; both the standard and the URL-safe
    alphabets are read. *)
Definition unbase64 (c : Z) : option Z :=
  if (65 <=? c) && (c <=? 90) then Some (c - 65)
  else if (97 <=? c) && (c <=? 122) then Some (c - 71)
  else if (48 <=? c) && (c <=? 57) then Some (c + 4)
  else if (c =? 43) || (c =? 45) then Some 62
  else if (c =? 47) || (c =? 95) then Some 63
  else None.

(** Sextets of the input: characters outside the alphabet are skipped
    and the first [=] ends the input. *)
Fixpoint sextets (cs : list Z) : list Z :=
  match cs with
  | [] => []
  | c :: cs' =>
      if c =? 61 then []
      else match unbase64 c with
           | Some v => v :: sextets cs'
           | None => sextets cs'
           end
  end.

(** Four sextets give three bytes; a trailing group of three gives two
    bytes, of two gives one, and a single trailing sextet is dropped. *)
Fixpoint bytes (fuel : nat) (vs : list Z) : list Z :=
  match fuel with
  | O => []
  | S fuel' =>
      match vs with
      | a :: b :: c :: d :: rest =>
          (a * 4 + b / 16) :: ((b mod 16) * 16 + c / 4)
            :: ((c mod 4) * 64 + d) :: bytes fuel' rest
      | [a; b; c] => [a * 4 + b / 16; (b mod 16) * 16 + c / 4]
      | [a; b] => [a * 4 + b / 16]
      | _ => []
      end
  end.

(** [Buffer.from(s, 'base64')] *)
Definition decode (s : string) : list Z :=
  let vs := sextets (JS.bytes_of_string s) in
  bytes (List.length vs) vs.

End Base64.

(* ================================================================== *)
(** ** Errors and results *)
(* ================================================================== *)

(** The errors of [src/error/HttpError] that the services throw, and the
    runtime's [TypeError] for a property read on [undefined]. *)
Inductive Exn : Type :=
| BadRequestError (message : string)
| ForbiddenError (message : string)
| TypeError.

Definition Result (A : Type) : Type := (Exn + A)%type.

(** A thrown [HttpError] is a client error; a [TypeError] is not. *)
Definition is_client_error (e : Exn) : bool :=
  match e with
  | BadRequestError _ | ForbiddenError _ => true
  | TypeError => false
  end.

(* ================================================================== *)
(** ** Strings of the JavaScript runtime used by the services *)
(* ================================================================== *)

Module JSString.

Local Open Scope string_scope.

Definition digit (d : Z) : ascii := ascii_of_N (48 + Z.to_N d).

(** Decimal digits of a non-negative integer, most significant first. *)
Fixpoint digits (fuel : nat) (n : Z) (acc : string) : string :=
  match fuel with
  | O => acc
  | S fuel' =>
      let acc' := String (digit (n mod 10)) acc in
      if (n <? 10)%Z then acc' else digits fuel' (n / 10) acc'
  end.

(** [n.toString()] for an integer [n] (below 10^21 in absolute value,
    where the runtime prints plain decimal digits). *)
Definition toString (n : Z) : string :=
  if (n <? 0)%Z
  then String "-" (digits (S (Z.to_nat (Z.log2 (- n)))) (- n) EmptyString)
  else digits (S (Z.to_nat (Z.log2 n))) n EmptyString.

Fixpoint replicate (n : nat) (c : ascii) : string :=
  match n with
  | O => EmptyString
  | S n' => String c (replicate n' c)
  end.

(** [s.padStart(target, c)] for a one-character filler. *)
Definition padStart (target : nat) (c : ascii) (s : string) : string :=
  replicate (target - String.length s) c ++ s.

(** [s.split(sep)] for a one-character separator. *)
Fixpoint split (sep : ascii) (s : string) : list string :=
  match s with
  | EmptyString => [EmptyString]
  | String c s' =>
      if Ascii.eqb c sep then EmptyString :: split sep s'
      else match split sep s' with
           | [] => [String c EmptyString]
           | w :: ws => String c w :: ws
           end
  end.

(** Whether a character occurs in a string. *)
Fixpoint contains (c : ascii) (s : string) : bool :=
  match s with
  | EmptyString => false
  | String c' s' => Ascii.eqb c' c || contains c s'
  end.

End JSString.

(* ================================================================== *)
(** ** [src/door/door.interface.ts] *)
(* ================================================================== *)

Record DoorLockCodeEncodeInput : Type := {
  userID : string;
  roomID : string;
  nationalID : string;
  secret : string
}.

(* ================================================================== *)
(** ** [src/admin/admin.service.ts] *)
(* ================================================================== *)

(** A row of the staff table (the columns the service reads). *)
Module Staff.
Record t : Type := {
  id : string;
  email : string;
  password : string
}.
End Staff.

Module AdminRepository.

(** [findStaffById]: the row with that primary key, if any. *)
Definition findStaffById (staff : list Staff.t) (id : string)
  : option Staff.t :=
  find (fun s => String.eqb (Staff.id s) id) staff.

End AdminRepository.

Module AdminService.

Local Open Scope string_scope.

Definition dynamicTruncationFn (hmacValue : list Z) : Z :=
  let offset :=
    JS.band (JS.index hmacValue (Z.of_nat (List.length hmacValue) - 1)) 15 in
  JS.bor
    (JS.bor
       (JS.bor (JS.shl (JS.band (JS.index hmacValue offset) 127) 24)
               (JS.shl (JS.band (JS.index hmacValue (offset + 1)) 255) 16))
       (JS.shl (JS.band (JS.index hmacValue (offset + 2)) 255) 8))
    (JS.band (JS.index hmacValue (offset + 3)) 255).

(** A byte store [buffer[i] = v]: the value is kept modulo 256, and a
    store outside the buffer does nothing. *)
Fixpoint store (buffer : list Z) (i : nat) (v : Z) : list Z :=
  match buffer, i with
  | [], _ => []
  | _ :: rest, O => v mod 256 :: rest
  | b :: rest, S i' => b :: store rest i' v
  end.

(** The loop [for (let i = 0; i < 8; i++)] of [generateHOTP], started at
    [i] with [steps] iterations left. *)
Fixpoint counterLoop (steps i : nat) (buffer : list Z) (counter : Z)
  : list Z :=
  match steps with
  | O => buffer
  | S steps' =>
      counterLoop steps' (S i)
                  (store buffer (7 - i) (JS.band counter 255))
                  (JS.sar counter 8)
  end.

Definition generateHOTP (secret : string) (counter : Z) : Z :=
  let decodedSecret := Base64.decode secret in
  let buffer := counterLoop 8 0 (repeat 0 8%nat) counter in
  let hmacResult := Hmac.hmac_sha1 decodedSecret buffer in
  let code := dynamicTruncationFn hmacResult in
  JS.rem code (10 ^ 6).

(** [now] is the reading of [Date.now()], in milliseconds. *)
Definition generateTOTP (now : Z) (secret : string) (window : Z) : Z :=
  let counter := now / 1000 in
  generateHOTP secret (counter + window).

Definition getDoorLockInput (staff : list Staff.t) (now : Z) (staffID : string)
  : Result DoorLockCodeEncodeInput :=
  match AdminRepository.findStaffById staff staffID with
  | None => inl (BadRequestError "Request failed. Staff ID is invalid.")
  | Some _ =>
      let dummyRoomID := "9999" in
      let dummyStaffNationalID := "1234567890123" in
      let secret :=
        JSString.toString
          (generateTOTP now (staffID ++ dummyRoomID ++ dummyStaffNationalID)
                        300) in
      inr {| userID := staffID;
             roomID := dummyRoomID;
             nationalID := dummyStaffNationalID;
             secret := JSString.padStart 6 "0" secret |}
  end.

Definition encode (input : DoorLockCodeEncodeInput) : string :=
  userID input ++ "|" ++ roomID input ++ "|" ++ nationalID input ++ "|"
    ++ secret input.

End AdminService.

(* ================================================================== *)
(** ** The reference definition of the code (RFC 4226), in the words of
       the specification *)
(* ================================================================== *)

Module Rfc4226.

(** The counter as an 8-byte big-endian unsigned integer. *)
Definition counter_bytes (counter : Z) : list Z :=
  map (fun i => (counter / 256 ^ i) mod 256) [7; 6; 5; 4; 3; 2; 1; 0].

(** Dynamic truncation: the low nibble of the last digest byte is an
    offset; the 4 bytes at that offset are read as a big-endian 32-bit
    value and the top bit is masked off. *)
Definition truncate (digest : list Z) : Z :=
  let o := Z.to_nat (last digest 0 mod 16) in
  let b i := nth (o + i) digest 0 in
  (b 0%nat * 2 ^ 24 + b 1%nat * 2 ^ 16 + b 2%nat * 2 ^ 8 + b 3%nat)
    mod 2 ^ 31.

(** The code for a key (a byte sequence) and a counter. *)
Definition hotp (key : list Z) (counter : Z) : Z :=
  truncate (Hmac.hmac_sha1 key (counter_bytes counter)) mod 1000000.

(** A code rendered as a decimal string, left-padded with zeros to 6
    digits. *)
Definition render (code : Z) : string :=
  let d i := JSString.digit ((code / 10 ^ i) mod 10) in
  String (d 5) (String (d 4) (String (d 3) (String (d 2)
    (String (d 1) (String (d 0) EmptyString))))).

End Rfc4226.

(* ================================================================== *)
(** ** [src/door/door.service.ts] and [src/door/door.router.ts] *)
(* ================================================================== *)

(** A row of the guest table, as the router's repository stub builds it. *)
Module Guest.
Record t : Type := {
  id : string;
  email : string;
  national_id : string
}.
End Guest.

Module DoorLockCodeService.

Local Open Scope string_scope.

(** Modelled from the spec: [door.service.ts] is not among the sources,
    so [decode] is missing; section 4.2 gives it as: split on [|] into
    exactly four parts, and fail if the field count is wrong. *)
Definition decode (payload : string) : option DoorLockCodeEncodeInput :=
  match JSString.split "|" payload with
  | [u; r; n; c] =>
      Some {| userID := u; roomID := r; nationalID := n; secret := c |}
  | _ => None
  end.

(** Modelled from the spec: [verify] of [door.service.ts] is missing;
    section 4.3 gives it as: decode the payload, recompute the expected
    code for the current instant only, and compare.  The key is the
    concatenation of the three identity fields (section 3); a payload
    that does not decode is a failure ([None]). *)
Definition verify (now : Z) (encoded : string) : option bool :=
  match decode encoded with
  | None => None
  | Some input =>
      let expected :=
        JSString.padStart 6 "0"
          (JSString.toString
             (AdminService.generateTOTP
                now (userID input ++ roomID input ++ nationalID input) 0)) in
      Some (String.eqb (secret input) expected)
  end.

(** Modelled from the spec: [getDoorLockInput] of [door.service.ts] is
    missing; sections 4.3 and 6 give it as: look the subject up by ID and
    fail if absent, then build the triple with the fixed room and
    document placeholders and ask for the code of window offset 300.
    The room argument the router passes is received and not used. *)
Definition getDoorLockInput (findOneById : string -> option Guest.t)
           (now : Z) (userID roomID : string)
  : Result DoorLockCodeEncodeInput :=
  match findOneById userID with
  | None => inl (BadRequestError "Request failed. Staff ID is invalid.")
  | Some _ =>
      let dummyRoomID := "9999" in
      let dummyStaffNationalID := "1234567890123" in
      let secret :=
        JSString.toString
          (AdminService.generateTOTP
             now (userID ++ dummyRoomID ++ dummyStaffNationalID) 300) in
      inr (Build_DoorLockCodeEncodeInput
             userID dummyRoomID dummyStaffNationalID
             (JSString.padStart 6 "0" secret))
  end.

End DoorLockCodeService.

Module DoorLockCodeRouter.

Local Open Scope string_scope.

(** The query string of a request; a parameter may be absent. *)
Record Query : Type := {
  q_userID : string;
  q_roomID : string;
  q_encoded : string
}.

(** [findOneById] of the repository the router hands to the service. *)
Definition findOneById (id : string) : option Guest.t :=
  let user := {| Guest.id := "1234";
                 Guest.email := "email";
                 Guest.national_id := "1234567890123" |} in
  if String.eqb id "1234" then Some user else None.

(** [router.get('/generate', ...)]: the JSON body of the answer. *)
Definition generate (now : Z) (query : Query) : Result string :=
  match DoorLockCodeService.getDoorLockInput
          findOneById now (q_userID query) (q_roomID query) with
  | inl e => inl e
  | inr input => inr (AdminService.encode input)
  end.

(** [router.get('/verify', ...)] *)
Definition verify (now : Z) (query : Query) : option bool :=
  DoorLockCodeService.verify now (q_encoded query).

End DoorLockCodeRouter.

(* ================================================================== *)
(** ** The database the room service works on *)
(* ================================================================== *)

Module Room.
Record t : Type := { id : Z; beds : list Z }.
End Room.

(** A reservation with its owning guest, its check-in and check-out dates
    (instants, in milliseconds) and its rooms. *)
Module Reservation.
Record t : Type := {
  id : string;
  guest_id : string;
  check_in : Z;
  check_out : Z;
  rooms : list Room.t
}.
End Reservation.

(** A room grant: a room of a reservation shared with a contact address. *)
Module GuestReservationRoom.
Record t : Type := {
  guest_email : string;
  reservation_id : string;
  room_id : Z
}.
End GuestReservationRoom.

Record Database : Type := {
  reservations : list Reservation.t;
  guest_reservation_rooms : list GuestReservationRoom.t
}.

Module RoomRepository.

(** Modelled from the spec: [door/room.repository.ts] and
    [reservation/reservation.repository.ts] are not among the sources.
    The specification (section 6) gives them as: a reservation lookup by
    guest or grantee and date returning the reservation with its room set
    and owner, and a grant store supporting create and lookup by (email,
    reservation).
    Tables are lists of rows and a lookup returns the first matching
    row. *)
Definition findReservationById (db : Database) (reservationID : string)
  : option Reservation.t :=
  find (fun r => String.eqb (Reservation.id r) reservationID) (reservations db).

Definition grant_matches (email reservationID : string)
           (g : GuestReservationRoom.t) : bool :=
  String.eqb (GuestReservationRoom.guest_email g) email
  && String.eqb (GuestReservationRoom.reservation_id g) reservationID.

(** Modelled from the spec: the lookup of a grant by (email, reservation). *)
Definition findGuestRoomReservation (db : Database)
           (email reservationID : string) : option GuestReservationRoom.t :=
  find (grant_matches email reservationID) (guest_reservation_rooms db).

(** Modelled from the spec (section 4.4, step 1): the guest, by subject ID
    or by shared-access email, has an active check-in window covering the
    date. *)
Definition active (db : Database) (guestID email : string) (date : Z)
           (r : Reservation.t) : bool :=
  (String.eqb (Reservation.guest_id r) guestID
   || existsb (grant_matches email (Reservation.id r))
              (guest_reservation_rooms db))
  && (Reservation.check_in r <=? date) && (date <=? Reservation.check_out r).

Definition findReservationIn (db : Database) (guestID email : string)
           (date : Z) : option Reservation.t :=
  find (active db guestID email date) (reservations db).

(** Modelled from the spec: creating a grant adds one row and returns it. *)
Definition createGuestRoomReservation (db : Database)
           (email reservationID : string) (roomID : Z)
  : GuestReservationRoom.t * Database :=
  let g := {| GuestReservationRoom.guest_email := email;
              GuestReservationRoom.reservation_id := reservationID;
              GuestReservationRoom.room_id := roomID |} in
  (g, {| reservations := reservations db;
         guest_reservation_rooms := guest_reservation_rooms db ++ [g] |}).

End RoomRepository.

Module ReservationRepository.

(** Modelled from the spec: the reservation with its room set. *)
Definition getReservation (db : Database) (reservationID : string)
  : option Reservation.t :=
  find (fun r => String.eqb (Reservation.id r) reservationID) (reservations db).

End ReservationRepository.

(* ================================================================== *)
(** ** [src/door/room.service.ts] *)
(* ================================================================== *)

(** An asynchronous service method: it runs against the database, and
    either throws or returns, leaving a database behind. *)
Definition Service (A : Type) : Type := Database -> Result A * Database.

Definition ret {A : Type} (a : A) : Service A := fun db => (inr a, db).

Definition throw {A : Type} (e : Exn) : Service A := fun db => (inl e, db).

Definition bind {A B : Type} (m : Service A) (k : A -> Service B)
  : Service B :=
  fun db =>
    match m db with
    | (inl e, db') => (inl e, db')
    | (inr a, db') => k a db'
    end.

(** A repository query: it reads the database. *)
Definition query {A : Type} (q : Database -> A) : Service A :=
  fun db => (inr (q db), db).

Notation "'await' x <- m ; k" := (bind m (fun x => k))
  (at level 10, x name, m at level 100, k at level 200).

Module RoomService.

Local Open Scope string_scope.

Definition checkIsReservationOwner (guestID reservationID : string)
  : Service bool :=
  await reservation <-
    query (fun db => RoomRepository.findReservationById db reservationID);
  match reservation with
  | None => throw (BadRequestError "Invalid reservation id.")
  | Some reservation =>
      ret (String.eqb (Reservation.guest_id reservation) guestID)
  end.

Definition shareRoom (ownerID email reservationID : string) (roomID : Z)
  : Service GuestReservationRoom.t :=
  await isOwner <- checkIsReservationOwner ownerID reservationID;
  if negb isOwner
  then throw (ForbiddenError
                "Can not share room. You did not make this reservation.")
  else fun db =>
         let (g, db') :=
           RoomRepository.createGuestRoomReservation
             db email reservationID roomID in
         (inr g, db').

(** [reservation.rooms] of a missing reservation is a [TypeError]. *)
Definition allRoomsInReservation (reservationID : string)
  : Service (list Z) :=
  await reservation <-
    query (fun db => ReservationRepository.getReservation db reservationID);
  match reservation with
  | None => throw TypeError
  | Some reservation => ret (map Room.id (Reservation.rooms reservation))
  end.

(** [shared.room_id] of a missing grant is a [TypeError]. *)
Definition roomShared (email reservationID : string) : Service Z :=
  await shared <-
    query (fun db =>
             RoomRepository.findGuestRoomReservation db email reservationID);
  match shared with
  | None => throw TypeError
  | Some shared => ret (GuestReservationRoom.room_id shared)
  end.

(** [rooms.includes(roomID)] *)
Definition includes (rooms : list Z) (roomID : Z) : bool :=
  existsb (fun r => r =? roomID)%Z rooms.

Definition findRoomsThatCanEnter (guestID email : string) (date : Z)
  : Service (list Z) :=
  await reservation <-
    query (fun db => RoomRepository.findReservationIn db guestID email date);
  match reservation with
  | None => throw (BadRequestError "Not checked in.")
  | Some reservation =>
      await isOwner <-
        checkIsReservationOwner guestID (Reservation.id reservation);
      if isOwner : bool
      then allRoomsInReservation (Reservation.id reservation)
      else await room <- roomShared email (Reservation.id reservation);
           ret [room]
  end.

Definition hasPermissionToEnterRoom (guestID email : string) (date : Z)
           (roomID : Z) : Service bool :=
  await reservation <-
    query (fun db => RoomRepository.findReservationIn db guestID email date);
  match reservation with
  | None => throw (BadRequestError "Not checked in.")
  | Some reservation =>
      if String.eqb (Reservation.guest_id reservation) guestID
      then await rooms <- allRoomsInReservation (Reservation.id reservation);
           ret (includes rooms roomID)
      else await room <- roomShared email (Reservation.id reservation);
           ret (room =? roomID)%Z
  end.

End RoomService.

(* ================================================================== *)
(** ** [src/app.ts]: the guarded actuation routes *)
(* ================================================================== *)

Module App.

Local Open Scope string_scope.

(** A message published on the channel: topic and payload. *)
Definition Message : Type := (string * string)%type.

(** What handling one request leaves behind: the names of the handlers
    that ran, in order; the messages on the channel; and the answer
    (none when no handler answered). *)
Record Outcome : Type := {
  ran : list string;
  channel : list Message;
  response : option (Result string)
}.

Section Routes.

Variable Request : Type.

(** A middleware either calls [next()], handing the request on, or
    fails; the error then goes to [errorHandler] and the remaining
    handlers of the route are skipped. *)
Definition Middleware : Type := Request -> Database -> Result Request.

(** The three guards live in [src/middlewares], which is not among the
    sources; they are parameters of the routes. *)
Variables isAuthenticated isInRoom isCheckedIn : Middleware.

Inductive Handler : Type :=
| Guard (name : string) (m : Middleware)
| Endpoint (topic payload body : string).

(** Express runs the handlers of a route from left to right. *)
Fixpoint run (stack : list Handler) (req : Request) (db : Database)
         (names : list string) (mqtt : list Message) : Outcome :=
  match stack with
  | [] => {| ran := names; channel := mqtt; response := None |}
  | Guard name m :: rest =>
      match m req db with
      | inl e => {| ran := names ++ [name]; channel := mqtt;
                    response := Some (inl e) |}
      | inr req' => run rest req' db (names ++ [name]) mqtt
      end
  | Endpoint topic payload body :: _ =>
      {| ran := names ++ ["handler"];
         channel := mqtt ++ [(topic, payload)];
         response := Some (inr body) |}
  end.

(** [app.post('/door/<command>', isAuthenticated, isInRoom,
    isCheckedIn, (req, res) => { mqttClient.publish('door', '<command>');
    res.send('eyy') })].  The router mounted before these routes answers
    under [/door] to [GET /generate] and [GET /verify] only, so a [POST]
    to one of the three paths reaches this stack. *)
Definition route (command : string) : list Handler :=
  [ Guard "isAuthenticated" isAuthenticated;
    Guard "isInRoom" isInRoom;
    Guard "isCheckedIn" isCheckedIn;
    Endpoint "door" command "eyy" ].

(** The commands that have a route: [/door/lock], [/door/unlock] and
    [/door/sound]. *)
Definition commands : list string := ["lock"; "unlock"; "sound"].

(** Handling [POST /door/<command>]. *)
Definition post (command : string) (req : Request) (db : Database)
           (mqtt : list Message) : Outcome :=
  run (route command) req db [] mqtt.

End Routes.

End App.

(* ================================================================== *)
(** ** More of [src/admin/admin.service.ts] *)
(* ================================================================== *)

(** Staff accounts: [registerStaff], [loginStaff] and [getStaff]. *)

(** What [omit(['password'], staff)] keeps of a staff row. *)
Module StaffDetails.
Record t : Type := {
  id : string;
  email : string
}.
End StaffDetails.

(** The fields of [CreateStaff] and of [LoginInput] the service reads. *)
Module CreateStaff.
Record t : Type := {
  email : string;
  password : string
}.
End CreateStaff.

Module LoginInput.
Record t : Type := {
  email : string;
  password : string
}.
End LoginInput.

(** [src/admin/admin.repository.ts]: the staff queries. *)
Module AdminStaffRepository.

(** [findStaff({ email })]: [findOne], the first row with that email. *)
Definition findStaff (staff : list Staff.t) (email : string)
  : option Staff.t :=
  find (fun s => String.eqb (Staff.email s) email) staff.

(** [createStaff(input)]: [insert] adds the row and returns it; [newId] is
    the id the database assigns. *)
Definition createStaff (newId : string) (input : CreateStaff.t)
           (staff : list Staff.t) : Staff.t * list Staff.t :=
  let row := {| Staff.id := newId;
                Staff.email := CreateStaff.email input;
                Staff.password := CreateStaff.password input |} in
  (row, staff ++ [row]).

End AdminStaffRepository.

Module AdminStaffService.

Local Open Scope string_scope.

Definition omitPassword (staff : Staff.t) : StaffDetails.t :=
  {| StaffDetails.id := Staff.id staff;
     StaffDetails.email := Staff.email staff |}.

Section Bcrypt.

(** [hash] and [compare] of [bcryptjs] are parameters: [hash salt s rounds]
    is the hash of [s] under the salt the library draws, and
    [compare s h] tells whether [s] matches the hash [h]. *)
Variable hash : string -> string -> Z -> string.
Variable compare : string -> string -> bool.

Definition registerStaff (salt newId : string) (input : CreateStaff.t)
           (staff : list Staff.t) : StaffDetails.t * list Staff.t :=
  let hashed := hash salt (CreateStaff.password input) 10 in
  let (row, staff') :=
    AdminStaffRepository.createStaff
      newId
      {| CreateStaff.email := CreateStaff.email input;
         CreateStaff.password := hashed |}
      staff in
  (omitPassword row, staff').

Definition loginStaff (input : LoginInput.t) (staff : list Staff.t)
  : Result StaffDetails.t :=
  match AdminStaffRepository.findStaff staff (LoginInput.email input) with
  | None => inl (BadRequestError "Wrong email or password.")
  | Some row =>
      let correct :=
        compare (LoginInput.password input) (Staff.password row) in
      if negb correct
      then inl (BadRequestError "Wrong email or password.")
      else inr (omitPassword row)
  end.

End Bcrypt.

Definition getStaff (id : string) (staff : list Staff.t)
  : Result StaffDetails.t :=
  match AdminRepository.findStaffById staff id with
  | None => inl (BadRequestError "Invalid ID.")
  | Some row => inr (omitPassword row)
  end.

End AdminStaffService.

(** The staff-operated unlock. *)

Module AdminDoor.

Local Open Scope string_scope.

(** [this.mqttClient.publish(`door/${roomID}`, 'unlock')] *)
Definition unlockDoor (roomID : string) (mqtt : list App.Message)
  : list App.Message :=
  mqtt ++ [("door/" ++ roomID, "unlock")].

End AdminDoor.

(* ================================================================== *)
(** * Specification vocabulary and sample data *)
(* ================================================================== *)

(** A byte value. *)
Definition byte (b : Z) : Prop := 0 <= b < 256.

(** No field of a payload contains the delimiter. *)
Definition delimiter_free (input : DoorLockCodeEncodeInput) : Prop :=
  JSString.contains "|" (userID input) = false
  /\ JSString.contains "|" (roomID input) = false
  /\ JSString.contains "|" (nationalID input) = false
  /\ JSString.contains "|" (secret input) = false.

(** Number of occurrences of a character. *)
Fixpoint count (c : ascii) (s : string) : nat :=
  match s with
  | EmptyString => 0
  | String c' s' => (if Ascii.eqb c' c then 1 else 0) + count c s'
  end.

(** Reservation IDs are a primary key. *)
Definition unique_ids (db : Database) : Prop :=
  NoDup (map Reservation.id (reservations db)).

(** The rows of the grant table for a contact address and a reservation. *)
Definition granted (db : Database) (email reservationID : string)
           (g : GuestReservationRoom.t) : Prop :=
  In g (guest_reservation_rooms db)
  /\ GuestReservationRoom.guest_email g = email
  /\ GuestReservationRoom.reservation_id g = reservationID.

(** The grant row for an (email, reservation, room) triple. *)
Definition new_grant (email reservationID : string) (roomID : Z)
  : GuestReservationRoom.t :=
  {| GuestReservationRoom.guest_email := email;
     GuestReservationRoom.reservation_id := reservationID;
     GuestReservationRoom.room_id := roomID |}.

(** The database after a grant was added. *)
Definition with_grant (db : Database) (g : GuestReservationRoom.t)
  : Database :=
  {| reservations := reservations db;
     guest_reservation_rooms := guest_reservation_rooms db ++ [g] |}.

(** The order in which the handlers of an actuation route run. *)
Definition guard_order : list string :=
  ["isAuthenticated"; "isInRoom"; "isCheckedIn"; "handler"]%string.

Section Gate.

Variable Request : Type.
Variables isAuthenticated isInRoom isCheckedIn : App.Middleware Request.

(** All three guards pass, each on the request the previous one handed
    on. *)
Definition guards_pass (req : Request) (db : Database) : Prop :=
  exists r1 r2 r3,
    isAuthenticated req db = inr r1
    /\ isInRoom r1 db = inr r2
    /\ isCheckedIn r2 db = inr r3.

(** The first guard that fails, in route order, fails with [e]. *)
Definition guard_fails (req : Request) (db : Database) (e : Exn) : Prop :=
  isAuthenticated req db = inl e
  \/ (exists r1,
         isAuthenticated req db = inr r1
         /\ (isInRoom r1 db = inl e
             \/ exists r2,
                  isInRoom r1 db = inr r2 /\ isCheckedIn r2 db = inl e)).

End Gate.

(** Modelled from the spec: the middlewares, the error handler and the
    error classes are not among the sources.  Sections 4.6, 6 and 7 give
    what a guard fails with: each guard fails closed with an authorization
    or bad-request error, which the server answers with a client error.
    A guard of that kind fails with client errors only. *)
Definition client_errors_only (Request : Type)
           (guard : App.Middleware Request) : Prop :=
  forall (req : Request) (db : Database) (e : Exn),
    guard req db = inl e -> is_client_error e = true.

(** ** Sample data *)

(** A staff table with the one member ["s1"]. *)
Definition staff_s1 : list Staff.t :=
  [ {| Staff.id := "s1"; Staff.email := "s1@hotel.example";
       Staff.password := "$2a$10$hash" |} ].

(** The payload issued to ["s1"] at the instant 1700000000000 ms. *)
Definition payload_s1 : DoorLockCodeEncodeInput :=
  {| userID := "s1"; roomID := "9999";
     nationalID := "1234567890123"; secret := "388945" |}.

(** A hotel with one reservation, of guest ["g1"], for rooms 1, 2 and 3,
    with room 2 shared with ["friend@example.org"]. *)
Definition reservation_R1 : Reservation.t :=
  {| Reservation.id := "R1";
     Reservation.guest_id := "g1";
     Reservation.check_in := 100;
     Reservation.check_out := 200;
     Reservation.rooms :=
       [ {| Room.id := 1; Room.beds := [11; 12] |};
         {| Room.id := 2; Room.beds := [21] |};
         {| Room.id := 3; Room.beds := [] |} ] |}.

Definition hotel_db : Database :=
  {| reservations := [reservation_R1];
     guest_reservation_rooms :=
       [ {| GuestReservationRoom.guest_email := "friend@example.org";
            GuestReservationRoom.reservation_id := "R1";
            GuestReservationRoom.room_id := 2 |} ] |}.

(** The grant of room 3 of ["R1"] to ["guest2@example.org"]. *)
Definition grant_R1_room3 : GuestReservationRoom.t :=
  new_grant "guest2@example.org" "R1" 3.

(** Modelled from the spec: the middlewares of [src/middlewares] are not
    among the sources.  Section 4.6 gives them as: authenticated (resolve
    the caller's identity, fail if absent), in-room (ask the permission
    evaluator about the target room, fail if the decision is false or a
    lookup fails), checked-in (the caller's reservation is within its
    window).  They serve as a sample instance of the routes' parameters. *)
Module SampleGate.

Record Request : Type := {
  user : option string;
  email : string;
  room : Z;
  date : Z
}.

Definition isAuthenticated : App.Middleware Request :=
  fun req _ =>
    match user req with
    | Some _ => inr req
    | None => inl (ForbiddenError "Unauthorized.")
    end.

Definition isInRoom : App.Middleware Request :=
  fun req db =>
    match user req with
    | None => inl (ForbiddenError "Unauthorized.")
    | Some guestID =>
        match fst (RoomService.hasPermissionToEnterRoom
                     guestID (email req) (date req) (room req) db) with
        | inl e => inl e
        | inr true => inr req
        | inr false => inl (ForbiddenError "No permission.")
        end
    end.

Definition isCheckedIn : App.Middleware Request :=
  fun req db =>
    match user req with
    | None => inl (ForbiddenError "Unauthorized.")
    | Some guestID =>
        match RoomRepository.findReservationIn
                db guestID (email req) (date req) with
        | Some _ => inr req
        | None => inl (BadRequestError "Not checked in.")
        end
    end.

Definition post : string -> Request -> Database -> list App.Message
                  -> App.Outcome :=
  App.post Request isAuthenticated isInRoom isCheckedIn.

(** The owner of [reservation_R1] asking for room 2 during the stay. *)
Definition owner_request : Request :=
  {| user := Some "g1"%string; email := "g1@example.org";
     room := 2; date := 150 |}.

(** A request that carries no identity. *)
Definition anonymous_request : Request :=
  {| user := None; email := EmptyString; room := 2; date := 150 |}.

(** The owner of [reservation_R1] asking for room 2 after the stay. *)
Definition late_request : Request :=
  {| user := Some "g1"%string; email := "g1@example.org";
     room := 2; date := 500 |}.

End SampleGate.

(** ** Vocabulary for the further properties *)

(** A decimal digit character. *)
Definition is_digit (c : ascii) : bool :=
  (48 <=? N_of_ascii c)%N && (N_of_ascii c <=? 57)%N.

Fixpoint all_chars (p : ascii -> bool) (s : string) : bool :=
  match s with
  | EmptyString => true
  | String c s' => p c && all_chars p s'
  end.

(** An 8-bit character the base64 reader skips: outside both alphabets
    and not the padding character. *)
Definition skipped_by_base64 (c : ascii) : Prop :=
  Base64.unbase64 (Z.of_N (N_of_ascii c)) = None
  /\ Z.of_N (N_of_ascii c) <> 61.

(** A stand-in for [bcryptjs] with the one property the library promises:
    a password matches its own hash. *)
Module SampleBcrypt.

Definition hash (salt s : string) (rounds : Z) : string :=
  (salt ++ String "$" s)%string.

Definition compare (s h : string) : bool :=
  String.eqb h ("ab" ++ String "$" s)%string.

End SampleBcrypt.

(** A staff table with two members whose IDs agree up to a ['='], and the
    payloads issued to them at the instant 1700000000000 ms. *)
Definition staff_a : list Staff.t :=
  [ {| Staff.id := "a=1"; Staff.email := "a1@hotel.example";
       Staff.password := "$2a$10$hash1" |};
    {| Staff.id := "a=2"; Staff.email := "a2@hotel.example";
       Staff.password := "$2a$10$hash2" |} ].

Definition payload_a1 : DoorLockCodeEncodeInput :=
  Eval vm_compute in
    match AdminService.getDoorLockInput staff_a 1700000000000 "a=1" with
    | inr input => input
    | inl _ => payload_s1
    end.

Definition payload_a2 : DoorLockCodeEncodeInput :=
  Eval vm_compute in
    match AdminService.getDoorLockInput staff_a 1700000000000 "a=2" with
    | inr input => input
    | inl _ => payload_s1
    end.

(** A staff table whose one member has the sample hash of
    ["open sesame"] as password. *)
Definition staff_s3 : list Staff.t :=
  [ {| Staff.id := "s3"; Staff.email := "s3@hotel.example";
       Staff.password := "ab$open sesame" |} ].

(** The owner of [reservation_R1] asking for room 3 during the stay. *)
Definition other_room_request : SampleGate.Request :=
  {| SampleGate.user := Some "g1"%string;
     SampleGate.email := "g1@example.org"%string;
     SampleGate.room := 3; SampleGate.date := 150 |}.

(** ** Tactics *)

Ltac div_lia := Z.to_euclidean_division_equations; lia.

Ltac solve_digit :=
  match goal with
  | |- JSString.digit _ = JSString.digit _ => f_equal; div_lia
  | |- _ = JSString.digit ?x => replace x with 0 by div_lia; reflexivity
  | |- _ => div_lia
  end.

(* ================================================================== *)
(** * Properties *)
(* ================================================================== *)

(** ** 32-bit operators on values that fit *)

Lemma toInt32_small (x : Z) :
  -2147483648 <= x < 2147483648 -> JS.toInt32 x = x.
Proof.
  intros Hx. unfold JS.toInt32.
  rewrite Z.mod_small; lia.
Qed.

Lemma band_mask (x : Z) (n : Z) :
  0 <= x < 2147483648 -> 0 <= n <= 8 ->
  JS.band x (Z.ones n) = x mod 2 ^ n.
Proof.
  intros Hx Hn. unfold JS.band.
  assert (Hp : 0 < 2 ^ n <= 256).
  { split; [apply Z.pow_pos_nonneg; lia|].
    change 256 with (2 ^ 8). apply Z.pow_le_mono_r; lia. }
  assert (Ho : Z.ones n = 2 ^ n - 1) by (rewrite Z.ones_equiv; lia).
  rewrite (toInt32_small x) by lia.
  rewrite (toInt32_small (Z.ones n)) by lia.
  rewrite Z.land_ones by lia.
  apply toInt32_small.
  pose proof (Z.mod_pos_bound x (2 ^ n)). lia.
Qed.

Lemma sar_div (x : Z) :
  0 <= x < 2147483648 -> JS.sar x 8 = x / 256.
Proof.
  intros Hx. unfold JS.sar.
  rewrite toInt32_small by lia.
  change (8 mod 32) with 8.
  rewrite Z.shiftr_div_pow2 by lia. reflexivity.
Qed.

Lemma shl_mul (x n : Z) :
  0 <= n < 32 -> 0 <= x -> x * 2 ^ n < 2147483648 ->
  JS.shl x n = x * 2 ^ n.
Proof.
  intros Hn Hx Hb. unfold JS.shl.
  assert (1 <= 2 ^ n) by (apply (Z.pow_le_mono_r 2 0 n); lia).
  rewrite (toInt32_small x) by nia.
  rewrite (Z.mod_small n 32) by lia.
  rewrite Z.shiftl_mul_pow2 by lia.
  apply toInt32_small. nia.
Qed.

Lemma land_disjoint (hi lo k : Z) :
  0 <= k -> 0 <= lo < 2 ^ k -> Z.land (hi * 2 ^ k) lo = 0.
Proof.
  intros Hk Hlo. apply Z.bits_inj'. intros n Hn.
  rewrite Z.land_spec, Z.bits_0.
  destruct (Z.lt_ge_cases n k) as [Hlt | Hge].
  - rewrite Z.mul_pow2_bits_low by lia. reflexivity.
  - rewrite <- (Z.mod_small lo (2 ^ k)) by lia.
    rewrite Z.mod_pow2_bits_high by lia.
    apply andb_false_r.
Qed.

Lemma bor_add (hi lo k : Z) :
  0 <= k -> 0 <= lo < 2 ^ k -> 0 <= hi -> hi * 2 ^ k + lo < 2147483648 ->
  JS.bor (hi * 2 ^ k) lo = hi * 2 ^ k + lo.
Proof.
  intros Hk Hlo Hhi Hb. unfold JS.bor.
  assert (0 < 2 ^ k) by (apply Z.pow_pos_nonneg; lia).
  rewrite (toInt32_small (hi * 2 ^ k)) by nia.
  rewrite (toInt32_small lo) by nia.
  rewrite <- Z.lxor_lor by (apply land_disjoint; lia).
  rewrite <- Z.add_nocarry_lxor by (apply land_disjoint; lia).
  apply toInt32_small. nia.
Qed.

(** ** Byte buffers *)

Lemma nth_byte (d : list Z) (n : nat) :
  Forall byte d -> byte (nth n d 0).
Proof.
  intros Hd. destruct (Nat.lt_ge_cases n (List.length d)) as [Hlt | Hge].
  - rewrite Forall_forall in Hd. apply Hd. apply nth_In. exact Hlt.
  - rewrite nth_overflow by exact Hge. unfold byte. lia.
Qed.

Lemma index_last (d : list Z) :
  JS.index d (Z.of_nat (List.length d) - 1) = last d 0.
Proof.
  unfold JS.index. destruct d as [| b d'].
  - reflexivity.
  - replace (Z.of_nat (List.length (b :: d')) - 1 <? 0) with false
      by (symmetry; apply Z.ltb_ge; simpl List.length; lia).
    replace (Z.to_nat (Z.of_nat (List.length (b :: d')) - 1))
      with (List.length d') by (simpl List.length; lia).
    clear. revert b. induction d' as [| c d' IH]; intros b.
    + reflexivity.
    + simpl List.length. change (nth (S (List.length d')) (b :: c :: d') 0)
        with (nth (List.length d') (c :: d') 0).
      rewrite IH. reflexivity.
Qed.

Lemma index_nth (d : list Z) (o : Z) (i : nat) :
  0 <= o ->
  JS.index d (o + Z.of_nat i) = nth (Z.to_nat o + i) d 0.
Proof.
  intros Ho. unfold JS.index.
  replace (o + Z.of_nat i <? 0) with false by (symmetry; apply Z.ltb_ge; lia).
  f_equal. lia.
Qed.

Lemma be_bytes_byte (n : nat) (x : Z) : Forall byte (Sha1.be_bytes n x).
Proof.
  induction n as [| n IH]; simpl.
  - constructor.
  - constructor; [| exact IH].
    unfold byte. apply Z.mod_pos_bound. lia.
Qed.

Lemma be_bytes_length (n : nat) (x : Z) : List.length (Sha1.be_bytes n x) = n.
Proof. induction n as [| n IH]; simpl; congruence. Qed.

Lemma digest_byte (msg : list Z) : Forall byte (Sha1.digest msg).
Proof.
  unfold Sha1.digest.
  destruct (Sha1.blocks _ _ _) as [[[[h0 h1] h2] h3] h4].
  repeat (apply Forall_app; split); apply be_bytes_byte.
Qed.

Lemma digest_length (msg : list Z) : List.length (Sha1.digest msg) = 20%nat.
Proof.
  unfold Sha1.digest.
  destruct (Sha1.blocks _ _ _) as [[[[h0 h1] h2] h3] h4].
  repeat rewrite length_app. repeat rewrite be_bytes_length. reflexivity.
Qed.

Lemma hmac_byte (key msg : list Z) : Forall byte (Hmac.hmac_sha1 key msg).
Proof. apply digest_byte. Qed.

Lemma hmac_length (key msg : list Z) :
  List.length (Hmac.hmac_sha1 key msg) = 20%nat.
Proof. apply digest_length. Qed.

(** ** Dynamic truncation *)

Lemma bor_sum (a lo hi k : Z) :
  a = hi * 2 ^ k ->
  0 <= k -> 0 <= lo < 2 ^ k -> 0 <= hi -> a + lo < 2147483648 ->
  JS.bor a lo = a + lo.
Proof. intros ->. apply bor_add. Qed.

Lemma band_127 (x : Z) : 0 <= x < 2147483648 -> JS.band x 127 = x mod 128.
Proof.
  intros Hx. change 127 with (Z.ones 7).
  rewrite band_mask by lia. reflexivity.
Qed.

Lemma band_255 (x : Z) : 0 <= x < 2147483648 -> JS.band x 255 = x mod 256.
Proof.
  intros Hx. change 255 with (Z.ones 8).
  rewrite band_mask by lia. reflexivity.
Qed.

Lemma band_15 (x : Z) : 0 <= x < 2147483648 -> JS.band x 15 = x mod 16.
Proof.
  intros Hx. change 15 with (Z.ones 4).
  rewrite band_mask by lia. reflexivity.
Qed.

(** The bit-level word assembled by [dynamicTruncationFn] is the
    big-endian value of the four bytes with the top bit masked off. *)
Lemma truncation_word (b0 b1 b2 b3 : Z) :
  byte b0 -> byte b1 -> byte b2 -> byte b3 ->
  JS.bor
    (JS.bor
       (JS.bor (JS.shl (JS.band b0 127) 24) (JS.shl (JS.band b1 255) 16))
       (JS.shl (JS.band b2 255) 8))
    (JS.band b3 255)
  = (b0 * 2 ^ 24 + b1 * 2 ^ 16 + b2 * 2 ^ 8 + b3) mod 2 ^ 31.
Proof.
  unfold byte. intros H0 H1 H2 H3.
  rewrite band_127, !band_255 by lia.
  rewrite (Z.mod_small b1), (Z.mod_small b2), (Z.mod_small b3) by lia.
  pose proof (Z.mod_pos_bound b0 128 ltac:(lia)) as Hm.
  rewrite (shl_mul (b0 mod 128) 24), (shl_mul b1 16), (shl_mul b2 8)
    by (change (2 ^ 24) with 16777216; change (2 ^ 16) with 65536;
        change (2 ^ 8) with 256; lia).
  rewrite (bor_sum (b0 mod 128 * 2 ^ 24) (b1 * 2 ^ 16) (b0 mod 128) 24)
    by (change (2 ^ 24) with 16777216; change (2 ^ 16) with 65536; lia).
  rewrite (bor_sum _ (b2 * 2 ^ 8) (b0 mod 128 * 2 ^ 8 + b1) 16)
    by (change (2 ^ 24) with 16777216; change (2 ^ 16) with 65536;
        change (2 ^ 8) with 256; lia).
  rewrite (bor_sum _ b3 (b0 mod 128 * 2 ^ 16 + b1 * 2 ^ 8 + b2) 8)
    by (change (2 ^ 24) with 16777216; change (2 ^ 16) with 65536;
        change (2 ^ 8) with 256; lia).
  change (2 ^ 24) with 16777216; change (2 ^ 16) with 65536;
    change (2 ^ 8) with 256; change (2 ^ 31) with 2147483648.
  apply Z.mod_unique with (q := b0 / 128); [lia |].
  pose proof (Z.div_mod b0 128 ltac:(lia)). lia.
Qed.

Theorem dynamicTruncationFn_truncate (d : list Z) :
  Forall byte d -> AdminService.dynamicTruncationFn d = Rfc4226.truncate d.
Proof.
  intros Hd. unfold AdminService.dynamicTruncationFn, Rfc4226.truncate.
  rewrite index_last.
  assert (Hl : byte (last d 0)).
  { rewrite <- index_last. unfold JS.index.
    destruct (_ <? 0); [unfold byte; lia | apply nth_byte; exact Hd]. }
  unfold byte in Hl. rewrite band_15 by lia.
  pose proof (Z.mod_pos_bound (last d 0) 16 ltac:(lia)) as Ho.
  set (o := last d 0 mod 16) in *.
  replace (JS.index d o) with (JS.index d (o + Z.of_nat 0))
    by (f_equal; lia).
  change (o + 1) with (o + Z.of_nat 1).
  change (o + 2) with (o + Z.of_nat 2).
  change (o + 3) with (o + Z.of_nat 3).
  rewrite !index_nth by lia.
  apply truncation_word; apply nth_byte; exact Hd.
Qed.

Lemma truncate_range (d : list Z) : 0 <= Rfc4226.truncate d < 2147483648.
Proof. unfold Rfc4226.truncate. apply Z.mod_pos_bound. reflexivity. Qed.

(** ** The counter buffer *)

(** On a counter that fits in 31 bits the loop writes the 8-byte
    big-endian representation. *)
Lemma counterLoop_bytes (counter : Z) :
  0 <= counter < 2147483648 ->
  AdminService.counterLoop 8 0 (repeat 0 8%nat) counter
  = Rfc4226.counter_bytes counter.
Proof.
  intros Hc.
  assert (Hdiv : forall x, 0 <= x < 2147483648 -> 0 <= x / 256 < 2147483648).
  { intros x Hx. split; [apply Z.div_pos; lia |].
    apply Z.div_lt_upper_bound; lia. }
  unfold AdminService.counterLoop, Rfc4226.counter_bytes.
  cbn [repeat AdminService.store Nat.sub map].
  set (c1 := counter / 256).
  pose proof (Hdiv _ Hc) as H1. fold c1 in H1.
  rewrite (sar_div counter) by lia. fold c1.
  set (c2 := c1 / 256). pose proof (Hdiv _ H1) as H2. fold c2 in H2.
  rewrite (sar_div c1) by lia. fold c2.
  set (c3 := c2 / 256). pose proof (Hdiv _ H2) as H3. fold c3 in H3.
  rewrite (sar_div c2) by lia. fold c3.
  set (c4 := c3 / 256). pose proof (Hdiv _ H3) as H4. fold c4 in H4.
  rewrite (sar_div c3) by lia. fold c4.
  set (c5 := c4 / 256). pose proof (Hdiv _ H4) as H5. fold c5 in H5.
  rewrite (sar_div c4) by lia. fold c5.
  set (c6 := c5 / 256). pose proof (Hdiv _ H5) as H6. fold c6 in H6.
  rewrite (sar_div c5) by lia. fold c6.
  set (c7 := c6 / 256). pose proof (Hdiv _ H6) as H7. fold c7 in H7.
  rewrite (sar_div c6) by lia. fold c7.
  rewrite !band_255 by lia.
  rewrite !Z.mod_mod by lia.
  change (256 ^ 0) with 1. change (256 ^ 1) with 256.
  change (256 ^ 2) with (256 * 256).
  change (256 ^ 3) with (256 * 256 * 256).
  change (256 ^ 4) with (256 * 256 * 256 * 256).
  change (256 ^ 5) with (256 * 256 * 256 * 256 * 256).
  change (256 ^ 6) with (256 * 256 * 256 * 256 * 256 * 256).
  change (256 ^ 7) with (256 * 256 * 256 * 256 * 256 * 256 * 256).
  rewrite <- !Z.div_div by lia.
  rewrite Z.div_1_r.
  reflexivity.
Qed.

Lemma generateHOTP_range (secret : string) (counter : Z) :
  0 <= AdminService.generateHOTP secret counter <= 999999.
Proof.
  unfold AdminService.generateHOTP.
  rewrite dynamicTruncationFn_truncate by apply hmac_byte.
  pose proof (truncate_range
                (Hmac.hmac_sha1 (Base64.decode secret)
                   (AdminService.counterLoop 8 0 (repeat 0 8%nat) counter)))
    as Ht.
  unfold JS.rem. change (10 ^ 6) with 1000000.
  rewrite Z.rem_mod_nonneg by lia.
  pose proof (Z.mod_pos_bound
                (Rfc4226.truncate
                   (Hmac.hmac_sha1 (Base64.decode secret)
                      (AdminService.counterLoop 8 0 (repeat 0 8%nat) counter)))
                1000000 ltac:(lia)).
  lia.
Qed.

Lemma generateHOTP_hotp (secret : string) (counter : Z) :
  0 <= counter < 2147483648 ->
  AdminService.generateHOTP secret counter
  = Rfc4226.hotp (Base64.decode secret) counter.
Proof.
  intros Hc. unfold AdminService.generateHOTP, Rfc4226.hotp.
  rewrite counterLoop_bytes by exact Hc.
  rewrite dynamicTruncationFn_truncate by apply hmac_byte.
  unfold JS.rem. change (10 ^ 6) with 1000000.
  apply Z.rem_mod_nonneg; [apply truncate_range | lia].
Qed.

(** The reference definition reproduces the test values of RFC 4226,
    appendix D (key ["12345678901234567890"], counters 0 to 9). *)
Example rfc4226_appendix_D :
  map (Rfc4226.hotp (JS.bytes_of_string "12345678901234567890"))
      [0; 1; 2; 3; 4; 5; 6; 7; 8; 9]
  = [755224; 287082; 359152; 969429; 338314;
     254676; 287922; 162583; 399871; 520489].
Proof. vm_compute. reflexivity. Qed.

(** C1 (as amended).  For every secret string and every counter that fits
    in 31 bits, [generateHOTP secret counter] equals the RFC 4226 reference
    definition keyed by the base64 decoding of the secret: the counter as an
    8-byte big-endian unsigned integer, HMAC-SHA1 over it, the low nibble of
    the last digest byte as an offset, the 4 bytes there as a big-endian
    32-bit value with the top bit masked off, modulo 1,000,000.  For every
    secret and every counter the result is a function of (secret, counter)
    only and lies in [0, 999999]. *)
Theorem generateHOTP_reference (secret : string) (counter : Z) :
  (0 <= counter < 2 ^ 31 ->
   AdminService.generateHOTP secret counter
   = Rfc4226.hotp (Base64.decode secret) counter)
  /\ (forall secret' counter',
        secret' = secret -> counter' = counter ->
        AdminService.generateHOTP secret' counter'
        = AdminService.generateHOTP secret counter)
  /\ 0 <= AdminService.generateHOTP secret counter <= 999999.
Proof.
  split; [| split].
  - change (2 ^ 31) with 2147483648. apply generateHOTP_hotp.
  - intros secret' counter' -> ->. reflexivity.
  - apply generateHOTP_range.
Qed.

Lemma generateHOTP_reference_witness :
  AdminService.generateHOTP "12345678901234567890" 1700000300
  = Rfc4226.hotp (Base64.decode "12345678901234567890") 1700000300.
Proof.
  apply (proj1 (generateHOTP_reference "12345678901234567890" 1700000300)).
  lia.
Defined.

(** C1 as stated fails twice.  The key is not the secret's bytes: on the
    RFC's own key and counter 1 the reference gives 287082 and the code
    903738.  And the counter is not written as an unsigned 8-byte integer
    once it needs 32 bits: at 2^31 the code's buffer begins with four
    [0xff] bytes, and its result differs from the reference even when both
    use the decoded key. *)
Lemma generateHOTP_not_reference :
  AdminService.generateHOTP "12345678901234567890" 1
  <> Rfc4226.hotp (JS.bytes_of_string "12345678901234567890") 1
  /\ AdminService.generateHOTP "12345678901234567890" 2147483648
     <> Rfc4226.hotp (Base64.decode "12345678901234567890") 2147483648.
Proof. split; vm_compute; discriminate. Qed.

(** The buffer the loop writes for the counter 2^31, against its unsigned
    big-endian representation. *)
Example counterLoop_sign_extends :
  AdminService.counterLoop 8 0 (repeat 0 8%nat) 2147483648
  = [255; 255; 255; 255; 128; 0; 0; 0]
  /\ Rfc4226.counter_bytes 2147483648 = [0; 0; 0; 0; 128; 0; 0; 0].
Proof. split; vm_compute; reflexivity. Qed.

(** ** Rendering a code *)

Lemma digits_fuel (f1 f2 : nat) (n : Z) (acc : string) :
  0 <= n < 2 ^ Z.of_nat (S f1) -> 0 <= n < 2 ^ Z.of_nat (S f2) ->
  JSString.digits (S f1) n acc = JSString.digits (S f2) n acc.
Proof.
  revert f2 n acc. induction f1 as [| f1 IH]; intros f2 n acc H1 H2.
  - change (2 ^ Z.of_nat 1) with 2 in H1. cbn [JSString.digits].
    replace (n <? 10) with true by (symmetry; apply Z.ltb_lt; lia).
    reflexivity.
  - cbn [JSString.digits].
    destruct (Z.ltb_spec n 10) as [Hn | Hn]; [reflexivity |].
    destruct f2 as [| f2].
    { change (2 ^ Z.of_nat 1) with 2 in H2. lia. }
    rewrite Nat2Z.inj_succ, Z.pow_succ_r in H1, H2 by lia.
    apply IH; split;
      try (apply Z.div_pos; lia);
      apply Z.div_lt_upper_bound; lia.
Qed.

Lemma toString_digits (n : Z) :
  0 <= n < 1048576 -> JSString.toString n = JSString.digits 20 n EmptyString.
Proof.
  intros Hn. unfold JSString.toString.
  replace (n <? 0) with false by (symmetry; apply Z.ltb_ge; lia).
  apply digits_fuel; [| change (2 ^ Z.of_nat 20) with 1048576; lia].
  rewrite !Nat2Z.inj_succ, Z2Nat.id by apply Z.log2_nonneg.
  destruct (Z.eq_dec n 0) as [-> | Hz].
  - change (Z.log2 0) with 0. change (2 ^ Z.succ 0) with 2. lia.
  - pose proof (Z.log2_spec n ltac:(lia)). lia.
Qed.

(** [toString] followed by [padStart(6, '0')] is the 6-digit rendering. *)
Lemma padStart_toString_render (n : Z) :
  0 <= n <= 999999 ->
  JSString.padStart 6 "0" (JSString.toString n) = Rfc4226.render n.
Proof.
  intros Hn. rewrite toString_digits by lia.
  unfold Rfc4226.render.
  change (10 ^ 5) with 100000. change (10 ^ 4) with 10000.
  change (10 ^ 3) with 1000. change (10 ^ 2) with 100.
  change (10 ^ 1) with 10. change (10 ^ 0) with 1.
  cbn [JSString.digits].
  do 6 (match goal with
        | |- context [?x <? 10] =>
            destruct (Z.ltb_spec x 10);
            [ unfold JSString.padStart; cbn [String.length Nat.sub
                JSString.replicate String.append];
              repeat (match goal with
                      | |- String _ _ = String _ _ => f_equal
                      end);
              solve_digit | ]
        end).
  div_lia.
Qed.

Lemma render_length (n : Z) : String.length (Rfc4226.render n) = 6%nat.
Proof. reflexivity. Qed.

(** ** Issuing a code *)

Lemma generateTOTP_range (now : Z) (secret : string) (window : Z) :
  0 <= AdminService.generateTOTP now secret window <= 999999.
Proof. unfold AdminService.generateTOTP. apply generateHOTP_range. Qed.

Lemma findStaffById_none (staff : list Staff.t) (staffID : string) :
  (forall s, In s staff -> Staff.id s <> staffID) ->
  AdminRepository.findStaffById staff staffID = None.
Proof.
  intros Hno. unfold AdminRepository.findStaffById.
  destruct (find _ staff) as [s |] eqn:Hf; [| reflexivity].
  apply find_some in Hf. destruct Hf as [Hin Heq].
  apply String.eqb_eq in Heq. exfalso. exact (Hno s Hin Heq).
Qed.

Lemma findStaffById_some (staff : list Staff.t) (staffID : string) :
  (exists s, In s staff /\ Staff.id s = staffID) ->
  exists s, AdminRepository.findStaffById staff staffID = Some s.
Proof.
  intros [s [Hin Hid]]. unfold AdminRepository.findStaffById.
  destruct (find _ staff) as [s' |] eqn:Hf; [exists s'; reflexivity |].
  pose proof (find_none _ _ Hf s Hin) as Hne. cbv beta in Hne.
  rewrite Hid, String.eqb_refl in Hne. discriminate.
Qed.

(** C4.  If no staff record has the given ID, [getDoorLockInput] fails
    with the client error for an unknown staff ID and returns no payload.
    If such a record exists, it returns the payload whose [userID] is the
    staff ID, whose [roomID] and [nationalID] are the placeholders ["9999"]
    and ["1234567890123"], and whose code field is the time code of
    [staffID ++ "9999" ++ "1234567890123"] at window 300, rendered
    zero-padded to 6 digits. *)
Theorem getDoorLockInput_spec (staff : list Staff.t) (now : Z)
        (staffID : string) :
  ((forall s, In s staff -> Staff.id s <> staffID) ->
   exists e,
     AdminService.getDoorLockInput staff now staffID = inl e
     /\ e = BadRequestError "Request failed. Staff ID is invalid."
     /\ is_client_error e = true)
  /\ ((exists s, In s staff /\ Staff.id s = staffID) ->
      AdminService.getDoorLockInput staff now staffID
      = inr {| userID := staffID;
               roomID := "9999";
               nationalID := "1234567890123";
               secret :=
                 Rfc4226.render
                   (AdminService.generateTOTP
                      now (staffID ++ "9999" ++ "1234567890123") 300) |}).
Proof.
  split.
  - intros Hno. eexists. unfold AdminService.getDoorLockInput.
    rewrite findStaffById_none by exact Hno. repeat split.
  - intros Hex. unfold AdminService.getDoorLockInput.
    destruct (findStaffById_some staff staffID Hex) as [s ->].
    rewrite padStart_toString_render by apply generateTOTP_range.
    reflexivity.
Qed.

Lemma getDoorLockInput_spec_witness :
  (exists e,
     AdminService.getDoorLockInput staff_s1 1700000000000 "s2" = inl e
     /\ e = BadRequestError "Request failed. Staff ID is invalid."
     /\ is_client_error e = true)
  /\ AdminService.getDoorLockInput staff_s1 1700000000000 "s1"
     = inr {| userID := "s1";
              roomID := "9999";
              nationalID := "1234567890123";
              secret :=
                Rfc4226.render
                  (AdminService.generateTOTP
                     1700000000000 ("s1" ++ "9999" ++ "1234567890123") 300) |}.
Proof.
  split.
  - apply (proj1 (getDoorLockInput_spec staff_s1 1700000000000 "s2")).
    intros s [<- | []]. simpl. discriminate.
  - apply (proj2 (getDoorLockInput_spec staff_s1 1700000000000 "s1")).
    exists (hd (Staff.Build_t EmptyString EmptyString EmptyString) staff_s1).
    simpl. auto.
Defined.

(** The code issued to staff ["s1"] at the instant 1700000000000 ms. *)
Example getDoorLockInput_s1 :
  AdminService.getDoorLockInput staff_s1 1700000000000 "s1"
  = inr {| userID := "s1"; roomID := "9999";
           nationalID := "1234567890123"; secret := "388945" |}.
Proof. vm_compute. reflexivity. Qed.

(** ** The payload codec *)

Lemma split_no_sep (sep : ascii) (s : string) :
  JSString.contains sep s = false -> JSString.split sep s = [s].
Proof.
  induction s as [| c s IH]; intros Hs.
  - reflexivity.
  - cbn [JSString.contains] in Hs. apply orb_false_iff in Hs.
    destruct Hs as [Hc Hs]. cbn [JSString.split].
    rewrite Hc, (IH Hs). reflexivity.
Qed.

Lemma split_nonempty (sep : ascii) (s : string) : JSString.split sep s <> [].
Proof.
  destruct s as [| c s]; cbn [JSString.split]; [discriminate |].
  destruct (Ascii.eqb c sep); [discriminate |].
  destruct (JSString.split sep s); discriminate.
Qed.

Lemma split_field (sep : ascii) (s t : string) :
  JSString.contains sep s = false ->
  JSString.split sep (s ++ String sep t) = s :: JSString.split sep t.
Proof.
  induction s as [| c s IH]; intros Hs.
  - cbn [String.append JSString.split]. rewrite Ascii.eqb_refl. reflexivity.
  - cbn [JSString.contains] in Hs. apply orb_false_iff in Hs.
    destruct Hs as [Hc Hs].
    cbn [String.append JSString.split]. rewrite Hc, (IH Hs). reflexivity.
Qed.

Lemma decode_encode (input : DoorLockCodeEncodeInput) :
  delimiter_free input ->
  DoorLockCodeService.decode (AdminService.encode input) = Some input.
Proof.
  intros (Hu & Hr & Hn & Hc). destruct input as [u r n c].
  cbn [userID roomID nationalID secret] in *.
  unfold DoorLockCodeService.decode, AdminService.encode.
  cbn [userID roomID nationalID secret].
  change ("|" ++ r ++ "|" ++ n ++ "|" ++ c)%string
    with (String "|" (r ++ String "|" (n ++ String "|" c)))%string.
  rewrite (split_field _ u _ Hu), (split_field _ r _ Hr),
    (split_field _ n _ Hn), (split_no_sep _ c Hc).
  reflexivity.
Qed.

(** C6.  Decoding an encoded payload returns the original four fields
    whenever none of them contains the delimiter ['|']; and there is an
    input with a field containing ['|'] for which the round trip does not
    return the original fields. *)
Theorem encode_decode_roundtrip :
  (forall input : DoorLockCodeEncodeInput,
      delimiter_free input ->
      DoorLockCodeService.decode (AdminService.encode input) = Some input)
  /\ (exists input : DoorLockCodeEncodeInput,
         JSString.contains "|" (userID input) = true
         /\ DoorLockCodeService.decode (AdminService.encode input)
            <> Some input).
Proof.
  split.
  - exact decode_encode.
  - exists {| userID := "s|1"; roomID := "9999";
              nationalID := "1234567890123"; secret := "000042" |}.
    split; [reflexivity | vm_compute; discriminate].
Qed.

Lemma encode_decode_roundtrip_witness :
  DoorLockCodeService.decode
    (AdminService.encode
       {| userID := "s1"; roomID := "9999";
          nationalID := "1234567890123"; secret := "000042" |})
  = Some {| userID := "s1"; roomID := "9999";
            nationalID := "1234567890123"; secret := "000042" |}.
Proof.
  apply (proj1 encode_decode_roundtrip).
  repeat split; reflexivity.
Defined.

(** A delimiter inside a field moves the field boundaries: the payload of
    the triple (["a|b"], ["c"], ["d"]) has five parts and is refused, and a
    payload can be read back as a different payload. *)
Example encode_ambiguous :
  AdminService.encode {| userID := "a|b"; roomID := "c";
                         nationalID := "d"; secret := "000042" |}
  = "a|b|c|d|000042"%string
  /\ DoorLockCodeService.decode "a|b|c|d|000042" = None
  /\ AdminService.encode {| userID := "a"; roomID := "b|c";
                            nationalID := EmptyString; secret := EmptyString |}
     = AdminService.encode {| userID := "a|b"; roomID := "c";
                              nationalID := EmptyString; secret := EmptyString |}.
Proof. repeat split. Qed.

(** ** The key of the code derivation *)

(** C7 (as amended).  For every identity triple, the HMAC key used for
    code derivation is the base64 decoding of the string obtained by
    concatenating the three identity fields: on every counter that fits in
    31 bits the code is the reference code under that key, and a payload
    issued by [getDoorLockInput] carries the code of the key decoded from
    its own three identity fields.  Supplying the same triple regenerates
    the same key and, for a given counter, the same code. *)
Theorem code_key_is_decoded_triple (subjectID roomID' documentID : string)
        (counter : Z) :
  (0 <= counter < 2 ^ 31 ->
   AdminService.generateHOTP (subjectID ++ roomID' ++ documentID) counter
   = Rfc4226.hotp (Base64.decode (subjectID ++ roomID' ++ documentID))
                  counter)
  /\ (forall staff now input,
         0 <= now / 1000 + 300 < 2 ^ 31 ->
         AdminService.getDoorLockInput staff now subjectID = inr input ->
         secret input
         = Rfc4226.render
             (Rfc4226.hotp
                (Base64.decode
                   (userID input ++ roomID input ++ nationalID input))
                (now / 1000 + 300))).
Proof.
  change (2 ^ 31) with 2147483648. split.
  - apply generateHOTP_hotp.
  - intros staff now input Hnow Hissue.
    unfold AdminService.getDoorLockInput in Hissue.
    destruct (AdminRepository.findStaffById staff subjectID);
      [| discriminate].
    injection Hissue as <-. cbn [userID roomID nationalID secret].
    rewrite padStart_toString_render by apply generateTOTP_range.
    unfold AdminService.generateTOTP.
    rewrite generateHOTP_hotp by exact Hnow. reflexivity.
Qed.

Lemma code_key_is_decoded_triple_witness :
  AdminService.generateHOTP ("s1" ++ "9999" ++ "1234567890123") 1700000300
  = Rfc4226.hotp (Base64.decode ("s1" ++ "9999" ++ "1234567890123"))
                 1700000300
  /\ secret payload_s1
     = Rfc4226.render
         (Rfc4226.hotp
            (Base64.decode
               (userID payload_s1 ++ roomID payload_s1
                  ++ nationalID payload_s1))
            (1700000000000 / 1000 + 300)).
Proof.
  split.
  - refine (proj1 (code_key_is_decoded_triple
                     "s1" "9999" "1234567890123" 1700000300) _).
    lia.
  - refine (proj2 (code_key_is_decoded_triple
                     "s1" "9999" "1234567890123" 1700000300)
                  staff_s1 1700000000000 payload_s1 _ _).
    + vm_compute. split; [discriminate | reflexivity].
    + vm_compute. reflexivity.
Defined.

(** C7 as stated fails: for the triple (["s1"], ["9999"],
    ["1234567890123"]) the key is 14 bytes long while the string has 19, and
    the code differs from the code keyed by the bytes of the string. *)
Lemma code_key_not_string_bytes :
  Base64.decode ("s1" ++ "9999" ++ "1234567890123")
  <> JS.bytes_of_string ("s1" ++ "9999" ++ "1234567890123")
  /\ AdminService.generateHOTP ("s1" ++ "9999" ++ "1234567890123") 1700000300
     <> Rfc4226.hotp
          (JS.bytes_of_string ("s1" ++ "9999" ++ "1234567890123"))
          1700000300.
Proof. split; vm_compute; discriminate. Qed.

(** ** The [/door/generate] route *)

(** C9.  Two requests to [/door/generate] that differ only in the room
    parameter get the same answer, and the room field of an issued payload
    is the placeholder ["9999"] whatever room the caller supplied. *)
Theorem generate_ignores_roomID (now : Z) (subjectID room1 room2 : string)
        (encoded : string) :
  DoorLockCodeRouter.generate
    now {| DoorLockCodeRouter.q_userID := subjectID;
           DoorLockCodeRouter.q_roomID := room1;
           DoorLockCodeRouter.q_encoded := encoded |}
  = DoorLockCodeRouter.generate
      now {| DoorLockCodeRouter.q_userID := subjectID;
             DoorLockCodeRouter.q_roomID := room2;
             DoorLockCodeRouter.q_encoded := encoded |}
  /\ (forall payload,
         DoorLockCodeRouter.generate
           now {| DoorLockCodeRouter.q_userID := subjectID;
                  DoorLockCodeRouter.q_roomID := room1;
                  DoorLockCodeRouter.q_encoded := encoded |}
         = inr payload ->
         exists code,
           payload
           = AdminService.encode
               {| userID := subjectID; roomID := "9999";
                  nationalID := "1234567890123"; secret := code |}).
Proof.
  split; [reflexivity |].
  intros payload. unfold DoorLockCodeRouter.generate,
    DoorLockCodeService.getDoorLockInput.
  cbn [DoorLockCodeRouter.q_userID DoorLockCodeRouter.q_roomID].
  destruct (DoorLockCodeRouter.findOneById subjectID); [| discriminate].
  intros H. injection H as <-. eexists. reflexivity.
Qed.

Lemma generate_ignores_roomID_witness :
  exists code,
    "1234|9999|1234567890123|866455"%string
    = AdminService.encode
        {| userID := "1234"; roomID := "9999";
           nationalID := "1234567890123"; secret := code |}.
Proof.
  refine (proj2 (generate_ignores_roomID
                   1700000000000 "1234" "101" "202" EmptyString)
                "1234|9999|1234567890123|866455"%string _).
  vm_compute. reflexivity.
Defined.

(** ** Verifying a code *)

Lemma digit_inj (a b : Z) :
  0 <= a < 10 -> 0 <= b < 10 -> JSString.digit a = JSString.digit b -> a = b.
Proof.
  intros Ha Hb H. unfold JSString.digit in H.
  apply (f_equal N_of_ascii) in H.
  rewrite !N_ascii_embedding in H by lia. lia.
Qed.

Lemma decimal_expansion (n : Z) :
  0 <= n <= 999999 ->
  n = (n / 100000) mod 10 * 100000 + (n / 10000) mod 10 * 10000
      + (n / 1000) mod 10 * 1000 + (n / 100) mod 10 * 100
      + (n / 10) mod 10 * 10 + (n / 1) mod 10.
Proof.
  intros Hn. rewrite Z.div_1_r.
  rewrite (Z.mod_small (n / 100000)) by
    (split; [apply Z.div_pos | apply Z.div_lt_upper_bound]; lia).
  replace (n / 100000) with (n / 10 / 10 / 10 / 10 / 10)
    by (rewrite !Z.div_div by lia; reflexivity).
  replace (n / 10000) with (n / 10 / 10 / 10 / 10)
    by (rewrite !Z.div_div by lia; reflexivity).
  replace (n / 1000) with (n / 10 / 10 / 10)
    by (rewrite !Z.div_div by lia; reflexivity).
  replace (n / 100) with (n / 10 / 10)
    by (rewrite !Z.div_div by lia; reflexivity).
  set (n1 := n / 10). set (n2 := n1 / 10). set (n3 := n2 / 10).
  set (n4 := n3 / 10).
  pose proof (Z.div_mod n 10 ltac:(lia)). fold n1 in H.
  pose proof (Z.div_mod n1 10 ltac:(lia)). fold n2 in H0.
  pose proof (Z.div_mod n2 10 ltac:(lia)). fold n3 in H1.
  pose proof (Z.div_mod n3 10 ltac:(lia)). fold n4 in H2.
  pose proof (Z.div_mod n4 10 ltac:(lia)).
  lia.
Qed.

Lemma digit_not_delimiter (d : Z) :
  0 <= d < 10 -> Ascii.eqb (JSString.digit d) "|" = false.
Proof.
  intros Hd.
  assert (H : d = 0 \/ d = 1 \/ d = 2 \/ d = 3 \/ d = 4 \/ d = 5
              \/ d = 6 \/ d = 7 \/ d = 8 \/ d = 9) by lia.
  repeat (destruct H as [-> | H]; [reflexivity |]). subst d. reflexivity.
Qed.

Lemma render_delimiter_free (n : Z) :
  JSString.contains "|" (Rfc4226.render n) = false.
Proof.
  unfold Rfc4226.render. cbn [JSString.contains].
  rewrite !digit_not_delimiter by (apply Z.mod_pos_bound; lia).
  reflexivity.
Qed.

Lemma render_inj (a b : Z) :
  0 <= a <= 999999 -> 0 <= b <= 999999 ->
  Rfc4226.render a = Rfc4226.render b -> a = b.
Proof.
  intros Ha Hb H. unfold Rfc4226.render in H.
  change (10 ^ 5) with 100000 in H. change (10 ^ 4) with 10000 in H.
  change (10 ^ 3) with 1000 in H. change (10 ^ 2) with 100 in H.
  change (10 ^ 1) with 10 in H. change (10 ^ 0) with 1 in H.
  injection H as H5 H4 H3 H2 H1 H0.
  apply digit_inj in H5, H4, H3, H2, H1, H0;
    try (apply Z.mod_pos_bound; lia).
  rewrite (decimal_expansion a Ha), (decimal_expansion b Hb).
  rewrite H5, H4, H3, H2, H1, H0. reflexivity.
Qed.

Lemma split_length (sep : ascii) (s : string) :
  List.length (JSString.split sep s) = S (count sep s).
Proof.
  induction s as [| c s IH]; [reflexivity |].
  cbn [JSString.split count].
  destruct (Ascii.eqb c sep).
  - cbn [List.length]. rewrite IH. reflexivity.
  - destruct (JSString.split sep s) as [| w ws] eqn:Hs.
    + exfalso. exact (split_nonempty sep s Hs).
    + cbn [List.length] in *. rewrite IH. reflexivity.
Qed.

Lemma count_append (c : ascii) (s t : string) :
  count c (s ++ t) = (count c s + count c t)%nat.
Proof.
  induction s as [| c' s IH]; [reflexivity |].
  cbn [String.append count]. rewrite IH. lia.
Qed.

Lemma contains_count (c : ascii) (s : string) :
  JSString.contains c s = true -> (1 <= count c s)%nat.
Proof.
  induction s as [| c' s IH]; cbn [JSString.contains count].
  - discriminate.
  - destruct (Ascii.eqb c' c); [lia |]. cbn [orb]. intros H.
    specialize (IH H). lia.
Qed.

(** A payload with a delimiter inside a field has more than four parts and
    is refused by [decode]. *)
Lemma decode_encode_delimited (input : DoorLockCodeEncodeInput) :
  JSString.contains "|" (userID input) = true
  \/ JSString.contains "|" (roomID input) = true
  \/ JSString.contains "|" (nationalID input) = true
  \/ JSString.contains "|" (secret input) = true ->
  DoorLockCodeService.decode (AdminService.encode input) = None.
Proof.
  intros H. unfold DoorLockCodeService.decode.
  pose proof (split_length "|" (AdminService.encode input)) as Hlen.
  unfold AdminService.encode in *.
  rewrite !count_append in Hlen.
  change (count "|" "|") with 1%nat in Hlen.
  assert (Hc : (1 <= count "|" (userID input) + count "|" (roomID input)
                     + count "|" (nationalID input)
                     + count "|" (secret input))%nat).
  { destruct H as [H | [H | [H | H]]]; apply contains_count in H; lia. }
  destruct (JSString.split "|" _) as [| a [| b [| c [| d [| e l]]]]];
    cbn [List.length] in Hlen; try reflexivity; lia.
Qed.

Lemma contains_dec (c : ascii) (s : string) :
  JSString.contains c s = true \/ JSString.contains c s = false.
Proof. destruct (JSString.contains c s); auto. Qed.

Lemma Some_eq {A : Type} (a b : A) : Some a = Some b -> a = b.
Proof. congruence. Qed.

Lemma verify_decoded (now : Z) (payload : string)
      (input : DoorLockCodeEncodeInput) :
  DoorLockCodeService.decode payload = Some input ->
  DoorLockCodeService.verify now payload
  = Some (String.eqb
            (secret input)
            (Rfc4226.render
               (AdminService.generateTOTP
                  now (userID input ++ roomID input ++ nationalID input) 0))).
Proof.
  intros Hd. unfold DoorLockCodeService.verify.
  rewrite Hd, padStart_toString_render by apply generateTOTP_range.
  reflexivity.
Qed.

Lemma getDoorLockInput_payload (staff : list Staff.t) (now : Z)
      (staffID : string) (input : DoorLockCodeEncodeInput) :
  AdminService.getDoorLockInput staff now staffID = inr input ->
  input = {| userID := staffID;
             roomID := "9999";
             nationalID := "1234567890123";
             secret :=
               Rfc4226.render
                 (AdminService.generateTOTP
                    now (staffID ++ "9999" ++ "1234567890123") 300) |}.
Proof.
  intros Hissue. unfold AdminService.getDoorLockInput in Hissue.
  destruct (AdminRepository.findStaffById staff staffID); [| discriminate].
  rewrite padStart_toString_render in Hissue by apply generateTOTP_range.
  injection Hissue as <-. reflexivity.
Qed.

Lemma verify_issued (now : Z) (staffID : string) (code : Z) :
  0 <= code <= 999999 ->
  code <> AdminService.generateTOTP
            now (staffID ++ "9999" ++ "1234567890123") 0 ->
  DoorLockCodeService.verify
    now (AdminService.encode
           {| userID := staffID; roomID := "9999";
              nationalID := "1234567890123";
              secret := Rfc4226.render code |})
  <> Some true.
Proof.
  intros Hcode Hne.
  destruct (contains_dec "|" staffID) as [Hbar | Hbar].
  - unfold DoorLockCodeService.verify.
    rewrite decode_encode_delimited by (left; exact Hbar). discriminate.
  - set (issued := {| userID := staffID; roomID := "9999";
                      nationalID := "1234567890123";
                      secret := Rfc4226.render code |}).
    assert (Hfree : delimiter_free issued).
    { split; [exact Hbar |]. split; [reflexivity |].
      split; [reflexivity |]. apply render_delimiter_free. }
    rewrite (verify_decoded now _ _ (decode_encode issued Hfree)).
    cbn [issued userID roomID nationalID secret].
    intros Hacc. apply Some_eq, String.eqb_eq, render_inj in Hacc;
      [exact (Hne Hacc) | exact Hcode | apply generateTOTP_range].
Qed.

(** C8 (as amended).  [verify] decodes the payload and fails when it does
    not decode; otherwise it accepts exactly when the presented code is the
    code recomputed for the current instant at window offset 0.  Hence a
    payload issued for the window 300 ahead is not accepted at the time of
    issuance unless its code coincides with the present-instant code. *)
Theorem verify_present_instant (now : Z) :
  (forall payload,
      DoorLockCodeService.decode payload = None ->
      DoorLockCodeService.verify now payload = None)
  /\ (forall payload input,
         DoorLockCodeService.decode payload = Some input ->
         DoorLockCodeService.verify now payload
         = Some (String.eqb
                   (secret input)
                   (Rfc4226.render
                      (AdminService.generateTOTP
                         now
                         (userID input ++ roomID input ++ nationalID input)
                         0))))
  /\ (forall staff staffID input,
         AdminService.getDoorLockInput staff now staffID = inr input ->
         AdminService.generateTOTP
           now (staffID ++ "9999" ++ "1234567890123") 300
         <> AdminService.generateTOTP
              now (staffID ++ "9999" ++ "1234567890123") 0 ->
         DoorLockCodeService.verify now (AdminService.encode input)
         <> Some true).
Proof.
  split; [| split].
  - intros payload Hd. unfold DoorLockCodeService.verify.
    rewrite Hd. reflexivity.
  - intros payload input. apply verify_decoded.
  - intros staff staffID input Hissue Hne.
    rewrite (getDoorLockInput_payload _ _ _ _ Hissue).
    apply verify_issued; [apply generateTOTP_range | exact Hne].
Qed.

Lemma verify_present_instant_witness :
  DoorLockCodeService.verify 1700000000000 "not a payload" = None
  /\ DoorLockCodeService.verify 1700000000000 "s1|9999|1234567890123|388945"
     = Some (String.eqb
               (secret payload_s1)
               (Rfc4226.render
                  (AdminService.generateTOTP
                     1700000000000
                     (userID payload_s1 ++ roomID payload_s1
                        ++ nationalID payload_s1)
                     0)))
  /\ DoorLockCodeService.verify 1700000000000 (AdminService.encode payload_s1)
     <> Some true.
Proof.
  split; [| split].
  - refine (proj1 (verify_present_instant 1700000000000) _ _).
    vm_compute. reflexivity.
  - refine (proj1 (proj2 (verify_present_instant 1700000000000))
                  "s1|9999|1234567890123|388945"%string payload_s1 _).
    vm_compute. reflexivity.
  - refine (proj2 (proj2 (verify_present_instant 1700000000000))
                  staff_s1 "s1"%string payload_s1 _ _).
    + vm_compute. reflexivity.
    + vm_compute. discriminate.
Defined.

(** C8 as stated fails: at the instant 1701215029000 ms the code issued to
    subject ["1234"] for the counter 300 seconds ahead is 503663, which is
    also the code of the present counter, so [verify] accepts the payload at
    the time of issuance. *)
Lemma verify_accepts_future_code :
  DoorLockCodeRouter.generate
    1701215029000
    {| DoorLockCodeRouter.q_userID := "1234";
       DoorLockCodeRouter.q_roomID := "101";
       DoorLockCodeRouter.q_encoded := EmptyString |}
  = inr "1234|9999|1234567890123|503663"%string
  /\ AdminService.generateHOTP ("1234" ++ "9999" ++ "1234567890123")
                               (1701215029 + 300) = 503663
  /\ DoorLockCodeRouter.verify
       1701215029000
       {| DoorLockCodeRouter.q_userID := EmptyString;
          DoorLockCodeRouter.q_roomID := EmptyString;
          DoorLockCodeRouter.q_encoded := "1234|9999|1234567890123|503663" |}
     = Some true.
Proof. split; [| split]; vm_compute; reflexivity. Qed.

(** ** The room service *)

Lemma bind_query {A B : Type} (q : Database -> A) (k : A -> Service B)
      (db : Database) :
  bind (query q) k db = k (q db) db.
Proof. reflexivity. Qed.

Lemma find_by_id (rs : list Reservation.t) (r : Reservation.t) :
  NoDup (map Reservation.id rs) -> In r rs ->
  find (fun r' => String.eqb (Reservation.id r') (Reservation.id r)) rs
  = Some r.
Proof.
  induction rs as [| r0 rs IH]; intros Hnd Hin; [destruct Hin |].
  cbn [map] in Hnd. inversion Hnd as [| ? ? Hfresh Hnd']; subst.
  cbn [find]. destruct Hin as [-> | Hin].
  - rewrite String.eqb_refl. reflexivity.
  - destruct (String.eqb_spec (Reservation.id r0) (Reservation.id r))
      as [Heq | Hne].
    + exfalso. apply Hfresh. rewrite Heq. apply in_map. exact Hin.
    + apply IH; assumption.
Qed.

Lemma find_by_id_none (rs : list Reservation.t) (reservationID : string) :
  (forall r, In r rs -> Reservation.id r <> reservationID) ->
  find (fun r => String.eqb (Reservation.id r) reservationID) rs = None.
Proof.
  intros Hno. destruct (find _ rs) as [r |] eqn:Hf; [| reflexivity].
  apply find_some in Hf. destruct Hf as [Hin Heq].
  apply String.eqb_eq in Heq. exfalso. exact (Hno r Hin Heq).
Qed.

Lemma grant_matches_iff (email reservationID : string)
      (g : GuestReservationRoom.t) :
  RoomRepository.grant_matches email reservationID g = true
  <-> GuestReservationRoom.guest_email g = email
      /\ GuestReservationRoom.reservation_id g = reservationID.
Proof.
  unfold RoomRepository.grant_matches.
  rewrite andb_true_iff, !String.eqb_eq. reflexivity.
Qed.

(** C10.  When [reservationID] names no reservation, [shareRoom] fails
    with the client error [BadRequestError "Invalid reservation id."], not
    with a Forbidden error, and the database is left as it was: no grant
    is created. *)
Theorem shareRoom_unknown_reservation (db : Database)
        (ownerID email reservationID : string) (roomID : Z) :
  (forall r, In r (reservations db) -> Reservation.id r <> reservationID) ->
  RoomService.shareRoom ownerID email reservationID roomID db
  = (inl (BadRequestError "Invalid reservation id."), db).
Proof.
  intros Hno.
  unfold RoomService.shareRoom, RoomService.checkIsReservationOwner.
  unfold bind at 1. rewrite bind_query.
  unfold RoomRepository.findReservationById.
  rewrite find_by_id_none by exact Hno. reflexivity.
Qed.

Lemma find_all_false {A : Type} (f : A -> bool) (l : list A) :
  (forall x, In x l -> f x = false) -> find f l = None.
Proof.
  intros Hno. destruct (find f l) as [x |] eqn:Hf; [| reflexivity].
  apply find_some in Hf. destruct Hf as [Hin Hx].
  rewrite (Hno x Hin) in Hx. discriminate.
Qed.

Lemma find_exists {A : Type} (f : A -> bool) (l : list A) :
  (exists x, In x l /\ f x = true) ->
  exists x, find f l = Some x /\ In x l /\ f x = true.
Proof.
  intros [x [Hin Hx]]. destruct (find f l) as [y |] eqn:Hf.
  - exists y. apply find_some in Hf. tauto.
  - rewrite (find_none _ _ Hf x Hin) in Hx. discriminate.
Qed.

Lemma includes_In (rooms : list Z) (roomID : Z) :
  RoomService.includes rooms roomID = true <-> In roomID rooms.
Proof.
  unfold RoomService.includes. rewrite existsb_exists. split.
  - intros [x [Hin Hx]]. apply Z.eqb_eq in Hx. subst. exact Hin.
  - intros Hin. exists roomID. split; [exact Hin | apply Z.eqb_refl].
Qed.

Lemma allRoomsInReservation_found (db : Database) (r : Reservation.t) :
  unique_ids db -> In r (reservations db) ->
  RoomService.allRoomsInReservation (Reservation.id r) db
  = (inr (map Room.id (Reservation.rooms r)), db).
Proof.
  intros Hu Hin. unfold RoomService.allRoomsInReservation.
  rewrite bind_query. unfold ReservationRepository.getReservation.
  rewrite (find_by_id _ r Hu Hin). reflexivity.
Qed.

Lemma roomShared_found (db : Database) (email reservationID : string)
      (g : GuestReservationRoom.t) :
  RoomRepository.findGuestRoomReservation db email reservationID = Some g ->
  RoomService.roomShared email reservationID db
  = (inr (GuestReservationRoom.room_id g), db).
Proof.
  intros Hg. unfold RoomService.roomShared. rewrite bind_query, Hg.
  reflexivity.
Qed.

(** C2.  If no reservation is active for the guest (by subject ID or by
    shared-access email) on the date, [hasPermissionToEnterRoom] fails with
    ["Not checked in."].  Otherwise a reservation is found; if the requester
    is its owning guest the answer is true exactly when the room is one of
    the reservation's rooms, and if not it is true exactly when the room is
    the room of the grant looked up for that email and that reservation. *)
Theorem hasPermissionToEnterRoom_spec (db : Database) (guestID email : string)
        (date roomID : Z) :
  unique_ids db ->
  ((forall r, In r (reservations db) ->
              RoomRepository.active db guestID email date r = false) ->
   RoomService.hasPermissionToEnterRoom guestID email date roomID db
   = (inl (BadRequestError "Not checked in."), db))
  /\ ((exists r, In r (reservations db)
                 /\ RoomRepository.active db guestID email date r = true) ->
      exists r0,
        RoomRepository.findReservationIn db guestID email date = Some r0
        /\ In r0 (reservations db)
        /\ RoomRepository.active db guestID email date r0 = true
        /\ (Reservation.guest_id r0 = guestID ->
            exists b,
              RoomService.hasPermissionToEnterRoom
                guestID email date roomID db = (inr b, db)
              /\ (b = true
                  <-> In roomID (map Room.id (Reservation.rooms r0))))
        /\ (Reservation.guest_id r0 <> guestID ->
            exists g b,
              granted db email (Reservation.id r0) g
              /\ RoomRepository.findGuestRoomReservation
                   db email (Reservation.id r0) = Some g
              /\ RoomService.hasPermissionToEnterRoom
                   guestID email date roomID db = (inr b, db)
              /\ (b = true <-> roomID = GuestReservationRoom.room_id g))).
Proof.
  intros Hu. split.
  - intros Hno. unfold RoomService.hasPermissionToEnterRoom.
    rewrite bind_query. unfold RoomRepository.findReservationIn.
    rewrite find_all_false by exact Hno. reflexivity.
  - intros Hex. apply find_exists in Hex.
    destruct Hex as [r0 (Hfind & Hin & Hact)].
    exists r0. repeat (split; [assumption |]).
    unfold RoomService.hasPermissionToEnterRoom.
    rewrite bind_query. unfold RoomRepository.findReservationIn.
    rewrite Hfind. split.
    + intros Hown. apply String.eqb_eq in Hown. rewrite Hown.
      unfold bind. rewrite (allRoomsInReservation_found db r0 Hu Hin).
      eexists. split; [reflexivity | apply includes_In].
    + intros Hown. apply String.eqb_neq in Hown. rewrite Hown.
      unfold RoomRepository.active in Hact. rewrite Hown in Hact.
      cbn [orb] in Hact. apply andb_true_iff in Hact.
      destruct Hact as [Hact _]. apply andb_true_iff in Hact.
      destruct Hact as [Hgrant _]. apply existsb_exists in Hgrant.
      apply find_exists in Hgrant. destruct Hgrant as [g (Hg & Hgin & Hm)].
      exists g. eexists. split; [| split; [exact Hg | split]].
      * apply grant_matches_iff in Hm. split; [exact Hgin | exact Hm].
      * unfold bind. rewrite (roomShared_found db _ _ g Hg). reflexivity.
      * cbv beta. rewrite Z.eqb_eq. split; intros; congruence.
Qed.

Lemma hotel_db_unique_ids : unique_ids hotel_db.
Proof.
  unfold unique_ids. cbn. constructor; [intros [] | constructor].
Defined.

Lemma hasPermissionToEnterRoom_spec_witness :
  RoomService.hasPermissionToEnterRoom "g9" "nobody@example.org" 150 2
                                       hotel_db
  = (inl (BadRequestError "Not checked in."), hotel_db)
  /\ exists b,
       RoomService.hasPermissionToEnterRoom "g1" "g1@example.org" 150 2
                                            hotel_db
       = (inr b, hotel_db)
       /\ (b = true <-> In 2 [1; 2; 3]).
Proof.
  split.
  - refine (proj1 (hasPermissionToEnterRoom_spec
                     hotel_db "g9" "nobody@example.org" 150 2
                     hotel_db_unique_ids) _).
    intros r [<- | []]. reflexivity.
  - destruct (proj2 (hasPermissionToEnterRoom_spec
                       hotel_db "g1" "g1@example.org" 150 2
                       hotel_db_unique_ids))
      as [r0 (Hfound & _ & _ & Hown & _)].
    + exists reservation_R1. split; [left; reflexivity | reflexivity].
    + vm_compute in Hfound. injection Hfound as <-.
      apply Hown. reflexivity.
Defined.

(** The checks of the specification's test list: the owner may enter room
    2 and not room 99; the grantee may enter the shared room 2 and not
    room 3. *)
Example permission_checks :
  RoomService.hasPermissionToEnterRoom "g1" "g1@example.org" 150 2 hotel_db
  = (inr true, hotel_db)
  /\ RoomService.hasPermissionToEnterRoom "g1" "g1@example.org" 150 99
                                          hotel_db
     = (inr false, hotel_db)
  /\ RoomService.hasPermissionToEnterRoom "g2" "friend@example.org" 150 2
                                          hotel_db
     = (inr true, hotel_db)
  /\ RoomService.hasPermissionToEnterRoom "g2" "friend@example.org" 150 3
                                          hotel_db
     = (inr false, hotel_db).
Proof. split; [| split; [| split]]; vm_compute; reflexivity. Qed.

Lemma shareRoom_unknown_reservation_witness :
  RoomService.shareRoom "g1" "friend@example.org" "R7" 2 hotel_db
  = (inl (BadRequestError "Invalid reservation id."), hotel_db).
Proof.
  refine (shareRoom_unknown_reservation
            hotel_db "g1" "friend@example.org" "R7" 2 _).
  intros r [<- | []]. simpl. discriminate.
Defined.

(** ** Sharing a room *)

(** When the lookups of the permission check return the shared
    reservation and grant.  After the grant for (email, reservation, room)
    was added, at every date the reservation covers: if no other
    reservation is active for the requester, the reservation lookup returns
    this reservation, and if every earlier grant of the reservation to the
    email names the same room, the grant lookup returns the new grant. *)
Lemma lookups_after_grant (db : Database) (email : string) (roomID : Z)
      (r : Reservation.t) (requesterID : string) (date : Z) :
  In r (reservations db) ->
  Reservation.check_in r <= date <= Reservation.check_out r ->
  (forall r',
      In r' (reservations db) ->
      RoomRepository.active
        (with_grant db (new_grant email (Reservation.id r) roomID))
        requesterID email date r'
      = true ->
      r' = r) ->
  (forall g',
      granted db email (Reservation.id r) g' ->
      GuestReservationRoom.room_id g' = roomID) ->
  RoomRepository.findReservationIn
    (with_grant db (new_grant email (Reservation.id r) roomID))
    requesterID email date
  = Some r
  /\ RoomRepository.findGuestRoomReservation
       (with_grant db (new_grant email (Reservation.id r) roomID))
       email (Reservation.id r)
     = Some (new_grant email (Reservation.id r) roomID).
Proof.
  intros Hin Hdate Honly Hrooms.
  set (g := new_grant email (Reservation.id r) roomID).
  assert (Hgm : RoomRepository.grant_matches email (Reservation.id r) g
                = true).
  { apply grant_matches_iff. split; reflexivity. }
  assert (Hlast : In g (guest_reservation_rooms db ++ [g])).
  { apply in_or_app. right. left. reflexivity. }
  assert (Hact : RoomRepository.active (with_grant db g) requesterID email
                                       date r = true).
  { unfold RoomRepository.active.
    replace (existsb _ _) with true.
    - rewrite orb_true_r. cbn [andb].
      apply andb_true_iff. split; apply Z.leb_le; lia.
    - symmetry. apply existsb_exists. exists g. split; [| exact Hgm].
      exact Hlast. }
  split.
  - destruct (find_exists
                (RoomRepository.active (with_grant db g) requesterID email
                                       date)
                (reservations db)
                (ex_intro _ r (conj Hin Hact)))
      as [r0 (Hf0 & Hin0 & Hact0)].
    unfold RoomRepository.findReservationIn.
    cbn [with_grant reservations]. fold (with_grant db g). rewrite Hf0.
    f_equal. apply Honly; assumption.
  - destruct (find_exists
                (RoomRepository.grant_matches email (Reservation.id r))
                (guest_reservation_rooms db ++ [g])
                (ex_intro _ g (conj Hlast Hgm)))
      as [g0 (Hg0 & Hgin0 & Hm0)].
    unfold RoomRepository.findGuestRoomReservation.
    cbn [with_grant guest_reservation_rooms]. rewrite Hg0. f_equal.
    apply in_app_or in Hgin0. destruct Hgin0 as [Hold | [<- | []]];
      [| reflexivity].
    apply grant_matches_iff in Hm0. destruct Hm0 as [Hmail Hres].
    assert (Hroom : GuestReservationRoom.room_id g0 = roomID).
    { apply Hrooms. split; [exact Hold | split; assumption]. }
    destruct g0 as [mail0 res0 room0]. cbn in Hmail, Hres, Hroom.
    subst. reflexivity.
Qed.




(** ** The guarded actuation routes *)

Section GuardChain.

Variable Request : Type.
Variables isAuthenticated isInRoom isCheckedIn : App.Middleware Request.

Local Abbreviation post :=
  (App.post Request isAuthenticated isInRoom isCheckedIn).
Local Abbreviation passes :=
  (guards_pass Request isAuthenticated isInRoom isCheckedIn).
Local Abbreviation fails :=
  (guard_fails Request isAuthenticated isInRoom isCheckedIn).

Lemma post_pass (command : string) (req : Request) (db : Database)
      (mqtt : list App.Message) :
  passes req db ->
  post command req db mqtt
  = {| App.ran := guard_order;
       App.channel := mqtt ++ [("door"%string, command)];
       App.response := Some (inr "eyy"%string) |}.
Proof.
  intros (r1 & r2 & r3 & H1 & H2 & H3).
  unfold App.post, App.route. cbn [App.run].
  rewrite H1, H2, H3. reflexivity.
Qed.

Lemma post_fail (command : string) (req : Request) (db : Database)
      (mqtt : list App.Message) (e : Exn) :
  fails req db e ->
  exists n,
    (n < 4)%nat
    /\ post command req db mqtt
       = {| App.ran := firstn n guard_order;
            App.channel := mqtt;
            App.response := Some (inl e) |}.
Proof.
  unfold App.post, App.route. cbn [App.run].
  intros [H1 | (r1 & H1 & [H2 | (r2 & H2 & H3)])].
  - exists 1%nat. rewrite H1. split; [lia | reflexivity].
  - exists 2%nat. rewrite H1, H2. split; [lia | reflexivity].
  - exists 3%nat. rewrite H1, H2, H3. split; [lia | reflexivity].
Qed.

Lemma pass_or_fail (req : Request) (db : Database) :
  passes req db \/ exists e, fails req db e.
Proof.
  unfold guards_pass, guard_fails.
  destruct (isAuthenticated req db) as [e1 | r1] eqn:H1.
  - right. exists e1. left. reflexivity.
  - destruct (isInRoom r1 db) as [e2 | r2] eqn:H2.
    + right. exists e2. right. exists r1. auto.
    + destruct (isCheckedIn r2 db) as [e3 | r3] eqn:H3.
      * right. exists e3. right. exists r1. split; [reflexivity |].
        right. exists r2. auto.
      * left. exists r1, r2, r3. auto.
Qed.

(** C3.  For a request to [/door/lock], [/door/unlock] or [/door/sound]:
    a command is on the channel after the request only if the three
    guards passed, in the order authenticated, in-room, checked-in, and
    then exactly that command was published on topic [door] after them;
    if a guard fails, the request ends with that guard's error, the later
    handlers do not run, and nothing is published; and with guards that
    fail with client errors only, as the specification describes them,
    every request that ends with an error ends with a client error, before
    the dispatch and with nothing published. *)
Theorem publish_only_after_guards (command : string) (req : Request)
        (db : Database) (mqtt : list App.Message) :
  In command App.commands ->
  (App.channel (post command req db mqtt) <> mqtt ->
   passes req db
   /\ App.ran (post command req db mqtt) = guard_order
   /\ App.channel (post command req db mqtt)
      = mqtt ++ [("door"%string, command)])
  /\ (forall e,
         fails req db e ->
         App.channel (post command req db mqtt) = mqtt
         /\ App.response (post command req db mqtt) = Some (inl e)
         /\ ~ In "handler"%string (App.ran (post command req db mqtt))
         /\ exists n, App.ran (post command req db mqtt)
                      = firstn n guard_order)
  /\ (client_errors_only Request isAuthenticated ->
      client_errors_only Request isInRoom ->
      client_errors_only Request isCheckedIn ->
      (passes req db \/ exists e, fails req db e /\ is_client_error e = true)
      /\ forall e,
           App.response (post command req db mqtt) = Some (inl e) ->
           is_client_error e = true
           /\ fails req db e
           /\ App.channel (post command req db mqtt) = mqtt
           /\ ~ In "handler"%string (App.ran (post command req db mqtt))).
Proof.
  intros _.
  assert (Hfailed : forall e,
             fails req db e ->
             App.channel (post command req db mqtt) = mqtt
             /\ App.response (post command req db mqtt) = Some (inl e)
             /\ ~ In "handler"%string (App.ran (post command req db mqtt))
             /\ exists n, App.ran (post command req db mqtt)
                          = firstn n guard_order).
  { intros e Hfail.
    destruct (post_fail command req db mqtt e Hfail) as [n [Hlt Hn]].
    rewrite Hn. cbn [App.channel App.response App.ran].
    repeat split; [| exists n; reflexivity].
    destruct n as [| [| [| [| n]]]]; cbn; intros H;
      try lia;
      repeat (destruct H as [H | H]; [discriminate |]); exact H. }
  split; [| split].
  - intros Hpub. destruct (pass_or_fail req db) as [Hpass | [e Hfail]].
    + rewrite (post_pass command req db mqtt Hpass). auto.
    + destruct (Hfailed e Hfail) as (Hch & _). congruence.
  - exact Hfailed.
  - intros Hauth Hroom Hchecked.
    assert (Hclient : forall e, fails req db e -> is_client_error e = true).
    { intros e [H1 | (r1 & _ & [H2 | (r2 & _ & H3)])].
      - exact (Hauth _ _ _ H1).
      - exact (Hroom _ _ _ H2).
      - exact (Hchecked _ _ _ H3). }
    split.
    + destruct (pass_or_fail req db) as [Hpass | [e Hfail]].
      * left. exact Hpass.
      * right. exists e. split; [exact Hfail | exact (Hclient e Hfail)].
    + intros e Hresp.
      destruct (pass_or_fail req db) as [Hpass | [e' Hfail]].
      * rewrite (post_pass command req db mqtt Hpass) in Hresp.
        cbn [App.response] in Hresp. discriminate.
      * destruct (Hfailed e' Hfail) as (Hch & Hre & Hno & _).
        assert (e' = e) by congruence. subst e'.
        repeat split; auto.
Qed.

End GuardChain.

(** The permission evaluator fails in one way only, with the bad-request
    error of a guest who is not checked in: the reservation it resolves
    comes from the table, and for a requester who is not its owner there
    is a grant, so the later lookups find their rows. *)
Lemma hasPermissionToEnterRoom_failure (db : Database)
      (guestID email : string) (date roomID : Z) (e : Exn) :
  fst (RoomService.hasPermissionToEnterRoom guestID email date roomID db)
  = inl e ->
  e = BadRequestError "Not checked in.".
Proof.
  unfold RoomService.hasPermissionToEnterRoom. rewrite bind_query.
  unfold RoomRepository.findReservationIn.
  destruct (find _ (reservations db)) as [r |] eqn:Hf.
  - apply find_some in Hf. destruct Hf as [Hin Hact].
    destruct (String.eqb (Reservation.guest_id r) guestID) eqn:Hown.
    + destruct (find_exists
                  (fun r' => String.eqb (Reservation.id r') (Reservation.id r))
                  (reservations db)) as [r0 (Hf0 & _)].
      { exists r. split; [exact Hin | apply String.eqb_refl]. }
      assert (Hrooms : RoomService.allRoomsInReservation (Reservation.id r) db
                       = (inr (map Room.id (Reservation.rooms r0)), db)).
      { unfold RoomService.allRoomsInReservation. rewrite bind_query.
        unfold ReservationRepository.getReservation. rewrite Hf0.
        reflexivity. }
      unfold bind. rewrite Hrooms. cbn. discriminate.
    + unfold RoomRepository.active in Hact. rewrite Hown in Hact.
      cbn [orb] in Hact. apply andb_true_iff in Hact.
      destruct Hact as [Hact _]. apply andb_true_iff in Hact.
      destruct Hact as [Hgrant _]. apply existsb_exists in Hgrant.
      apply find_exists in Hgrant. destruct Hgrant as [g (Hg & _)].
      unfold bind.
      rewrite (roomShared_found db email (Reservation.id r) g Hg).
      cbn. discriminate.
  - cbn. intros H. injection H as <-. reflexivity.
Qed.

(** The sample guards fail with client errors only. *)
Lemma sample_isAuthenticated_client :
  client_errors_only SampleGate.Request SampleGate.isAuthenticated.
Proof.
  intros req db e. unfold SampleGate.isAuthenticated.
  destruct (SampleGate.user req); intros H; [discriminate |].
  injection H as <-. reflexivity.
Qed.

Lemma sample_isInRoom_client :
  client_errors_only SampleGate.Request SampleGate.isInRoom.
Proof.
  intros req db e. unfold SampleGate.isInRoom.
  destruct (SampleGate.user req) as [guestID |].
  - destruct (fst (RoomService.hasPermissionToEnterRoom _ _ _ _ db))
      as [e' | [|]] eqn:Hp; intros H; try discriminate.
    + injection H as <-.
      rewrite (hasPermissionToEnterRoom_failure _ _ _ _ _ _ Hp).
      reflexivity.
    + injection H as <-. reflexivity.
  - intros H. injection H as <-. reflexivity.
Qed.

Lemma sample_isCheckedIn_client :
  client_errors_only SampleGate.Request SampleGate.isCheckedIn.
Proof.
  intros req db e. unfold SampleGate.isCheckedIn.
  destruct (SampleGate.user req) as [guestID |].
  - destruct (RoomRepository.findReservationIn _ _ _ _); intros H;
      [discriminate |].
    injection H as <-. reflexivity.
  - intros H. injection H as <-. reflexivity.
Qed.

Lemma publish_only_after_guards_witness :
  (guards_pass SampleGate.Request SampleGate.isAuthenticated
               SampleGate.isInRoom SampleGate.isCheckedIn
               SampleGate.owner_request hotel_db
   /\ App.ran (SampleGate.post "unlock" SampleGate.owner_request hotel_db [])
      = guard_order
   /\ App.channel
        (SampleGate.post "unlock" SampleGate.owner_request hotel_db [])
      = [] ++ [("door"%string, "unlock"%string)])
  /\ (App.channel
        (SampleGate.post "lock" SampleGate.anonymous_request hotel_db [])
      = []
      /\ App.response
           (SampleGate.post "lock" SampleGate.anonymous_request hotel_db [])
         = Some (inl (ForbiddenError "Unauthorized."))
      /\ ~ In "handler"%string
           (App.ran
              (SampleGate.post "lock" SampleGate.anonymous_request
                               hotel_db []))
      /\ exists n,
           App.ran
             (SampleGate.post "lock" SampleGate.anonymous_request hotel_db [])
           = firstn n guard_order)
  /\ (is_client_error (BadRequestError "Not checked in.") = true
      /\ guard_fails SampleGate.Request SampleGate.isAuthenticated
                     SampleGate.isInRoom SampleGate.isCheckedIn
                     SampleGate.late_request hotel_db
                     (BadRequestError "Not checked in.")
      /\ App.channel
           (SampleGate.post "sound" SampleGate.late_request hotel_db [])
         = []
      /\ ~ In "handler"%string
           (App.ran
              (SampleGate.post "sound" SampleGate.late_request hotel_db []))).
Proof.
  split; [| split].
  - refine (proj1 (publish_only_after_guards
                     SampleGate.Request SampleGate.isAuthenticated
                     SampleGate.isInRoom SampleGate.isCheckedIn
                     "unlock" SampleGate.owner_request hotel_db [] _) _).
    + right. left. reflexivity.
    + vm_compute. discriminate.
  - refine (proj1 (proj2 (publish_only_after_guards
                            SampleGate.Request SampleGate.isAuthenticated
                            SampleGate.isInRoom SampleGate.isCheckedIn
                            "lock" SampleGate.anonymous_request hotel_db [] _))
                  (ForbiddenError "Unauthorized.") _).
    + left. reflexivity.
    + left. reflexivity.
  - refine (proj2 (proj2 (proj2 (publish_only_after_guards
                                   SampleGate.Request
                                   SampleGate.isAuthenticated
                                   SampleGate.isInRoom SampleGate.isCheckedIn
                                   "sound" SampleGate.late_request hotel_db
                                   [] _))
                         sample_isAuthenticated_client
                         sample_isInRoom_client
                         sample_isCheckedIn_client)
                  (BadRequestError "Not checked in.") _).
    + right. right. left. reflexivity.
    + reflexivity.
Defined.

(** An unauthenticated request to [/door/lock]: an authorization error,
    and nothing on the channel. *)
Example unauthenticated_lock :
  SampleGate.post "lock" SampleGate.anonymous_request hotel_db []
  = {| App.ran := ["isAuthenticated"%string];
       App.channel := [];
       App.response := Some (inl (ForbiddenError "Unauthorized.")) |}.
Proof. reflexivity. Qed.

(* ================================================================== *)
(** * Further properties *)
(* ================================================================== *)

(** ** The counter buffer on every counter *)

Lemma toInt32_range (x : Z) : -2147483648 <= JS.toInt32 x < 2147483648.
Proof.
  unfold JS.toInt32.
  pose proof (Z.mod_pos_bound (x + 2147483648) 4294967296 ltac:(lia)). lia.
Qed.

Lemma band_255_any (x : Z) : JS.band x 255 = JS.toInt32 x mod 256.
Proof.
  unfold JS.band. rewrite (toInt32_small 255) by lia.
  change 255 with (Z.ones 8). rewrite Z.land_ones by lia.
  change (2 ^ 8) with 256. apply toInt32_small.
  pose proof (Z.mod_pos_bound (JS.toInt32 x) 256 ltac:(lia)). lia.
Qed.

Lemma sar_8_any (x : Z) : JS.sar x 8 = JS.toInt32 x / 256.
Proof.
  unfold JS.sar. change (8 mod 32) with 8.
  rewrite Z.shiftr_div_pow2 by lia. reflexivity.
Qed.

Lemma div_256_range (x : Z) :
  -2147483648 <= x < 2147483648 -> -2147483648 <= x / 256 < 2147483648.
Proof. intros Hx. div_lia. Qed.

(** The byte at bit position [k] of a number and of its residue modulo
    2^64 agree when the byte lies inside the 64 bits. *)
Lemma byte_of_residue (x k : Z) :
  0 <= k <= 56 -> (x mod 2 ^ 64 / 2 ^ k) mod 256 = (x / 2 ^ k) mod 256.
Proof.
  intros Hk. change 256 with (2 ^ 8).
  rewrite <- !Z.shiftr_div_pow2, <- !Z.land_ones by lia.
  apply Z.bits_inj'. intros n Hn.
  rewrite !Z.land_spec, !Z.shiftr_spec, Z.land_spec by lia.
  destruct (Z.lt_ge_cases n 8) as [Hlt | Hge].
  - rewrite (Z.ones_spec_low 64) by lia. rewrite andb_true_r. reflexivity.
  - rewrite (Z.ones_spec_high 8) by lia. rewrite !andb_false_r. reflexivity.
Qed.

Lemma counterLoop_toInt32 (counter : Z) :
  AdminService.counterLoop 8 0 (repeat 0 8%nat) counter
  = Rfc4226.counter_bytes (JS.toInt32 counter mod 2 ^ 64).
Proof.
  unfold AdminService.counterLoop, Rfc4226.counter_bytes.
  cbn [repeat AdminService.store Nat.sub map].
  pose proof (toInt32_range counter) as H0.
  set (c0 := JS.toInt32 counter) in *.
  rewrite (band_255_any counter), (sar_8_any counter). fold c0.
  set (c1 := c0 / 256). pose proof (div_256_range _ H0) as H1. fold c1 in H1.
  rewrite (band_255_any c1), (sar_8_any c1), (toInt32_small c1) by lia.
  set (c2 := c1 / 256). pose proof (div_256_range _ H1) as H2. fold c2 in H2.
  rewrite (band_255_any c2), (sar_8_any c2), (toInt32_small c2) by lia.
  set (c3 := c2 / 256). pose proof (div_256_range _ H2) as H3. fold c3 in H3.
  rewrite (band_255_any c3), (sar_8_any c3), (toInt32_small c3) by lia.
  set (c4 := c3 / 256). pose proof (div_256_range _ H3) as H4. fold c4 in H4.
  rewrite (band_255_any c4), (sar_8_any c4), (toInt32_small c4) by lia.
  set (c5 := c4 / 256). pose proof (div_256_range _ H4) as H5. fold c5 in H5.
  rewrite (band_255_any c5), (sar_8_any c5), (toInt32_small c5) by lia.
  set (c6 := c5 / 256). pose proof (div_256_range _ H5) as H6. fold c6 in H6.
  rewrite (band_255_any c6), (sar_8_any c6), (toInt32_small c6) by lia.
  set (c7 := c6 / 256). pose proof (div_256_range _ H6) as H7. fold c7 in H7.
  rewrite (band_255_any c7), (toInt32_small c7) by lia.
  rewrite !Z.mod_mod by lia.
  change (256 ^ 7) with (2 ^ 56). change (256 ^ 6) with (2 ^ 48).
  change (256 ^ 5) with (2 ^ 40). change (256 ^ 4) with (2 ^ 32).
  change (256 ^ 3) with (2 ^ 24). change (256 ^ 2) with (2 ^ 16).
  change (256 ^ 1) with (2 ^ 8). change (256 ^ 0) with (2 ^ 0).
  rewrite !byte_of_residue by lia.
  change (2 ^ 56) with (256 * 256 * 256 * 256 * 256 * 256 * 256).
  change (2 ^ 48) with (256 * 256 * 256 * 256 * 256 * 256).
  change (2 ^ 40) with (256 * 256 * 256 * 256 * 256).
  change (2 ^ 32) with (256 * 256 * 256 * 256).
  change (2 ^ 24) with (256 * 256 * 256).
  change (2 ^ 16) with (256 * 256).
  change (2 ^ 8) with 256. change (2 ^ 0) with 1.
  rewrite <- !Z.div_div by lia.
  rewrite Z.div_1_r. reflexivity.
Qed.

(** X1.  On every counter, the loop of [generateHOTP] fills the buffer
    with the 8-byte big-endian form of the counter reduced to a signed
    32-bit integer and sign-extended to 64 bits, and [generateHOTP] is the
    reference code, under the decoded key, of that 64-bit value; so counters
    that differ by a multiple of 2^32 give the same code. *)
Theorem generateHOTP_every_counter (secret : string) (counter : Z) :
  AdminService.counterLoop 8 0 (repeat 0 8%nat) counter
  = Rfc4226.counter_bytes (JS.toInt32 counter mod 2 ^ 64)
  /\ AdminService.generateHOTP secret counter
     = Rfc4226.hotp (Base64.decode secret) (JS.toInt32 counter mod 2 ^ 64)
  /\ forall k,
       AdminService.generateHOTP secret (counter + k * 2 ^ 32)
       = AdminService.generateHOTP secret counter.
Proof.
  assert (Hcode : forall c,
             AdminService.generateHOTP secret c
             = Rfc4226.hotp (Base64.decode secret)
                            (JS.toInt32 c mod 2 ^ 64)).
  { intros c. unfold AdminService.generateHOTP, Rfc4226.hotp.
    rewrite counterLoop_toInt32.
    rewrite dynamicTruncationFn_truncate by apply hmac_byte.
    unfold JS.rem. change (10 ^ 6) with 1000000.
    apply Z.rem_mod_nonneg; [apply truncate_range | lia]. }
  split; [apply counterLoop_toInt32 |]. split; [apply Hcode |].
  intros k. rewrite !Hcode. f_equal. f_equal.
  unfold JS.toInt32. change (2 ^ 32) with 4294967296.
  replace (counter + k * 4294967296 + 2147483648)
    with (counter + 2147483648 + k * 4294967296) by lia.
  rewrite Z.mod_add by lia. reflexivity.
Qed.

(** ** Dynamic truncation on its own *)

(** X2.  On every buffer of bytes [dynamicTruncationFn] is the dynamic
    truncation of RFC 4226 and returns a value in [0, 2^31); on a buffer of
    20 bytes the four bytes it reads lie inside the buffer. *)
Theorem dynamicTruncationFn_spec (hmacValue : list Z) :
  Forall byte hmacValue ->
  AdminService.dynamicTruncationFn hmacValue = Rfc4226.truncate hmacValue
  /\ 0 <= AdminService.dynamicTruncationFn hmacValue < 2 ^ 31
  /\ (List.length hmacValue = 20%nat ->
      JS.band (JS.index hmacValue (Z.of_nat (List.length hmacValue) - 1)) 15
      + 3 < Z.of_nat (List.length hmacValue)).
Proof.
  intros Hd. split; [| split].
  - apply dynamicTruncationFn_truncate. exact Hd.
  - rewrite dynamicTruncationFn_truncate by exact Hd.
    change (2 ^ 31) with 2147483648. apply truncate_range.
  - intros Hlen. rewrite index_last.
    assert (Hl : byte (last hmacValue 0)).
    { rewrite <- index_last. unfold JS.index.
      destruct (_ <? 0); [unfold byte; lia | apply nth_byte; exact Hd]. }
    unfold byte in Hl. rewrite band_15 by lia. rewrite Hlen.
    pose proof (Z.mod_pos_bound (last hmacValue 0) 16 ltac:(lia)). lia.
Qed.

Lemma dynamicTruncationFn_spec_witness :
  AdminService.dynamicTruncationFn
    (Hmac.hmac_sha1 (JS.bytes_of_string "Jefe") (JS.bytes_of_string "abc"))
  = Rfc4226.truncate
      (Hmac.hmac_sha1 (JS.bytes_of_string "Jefe") (JS.bytes_of_string "abc")).
Proof.
  refine (proj1 (dynamicTruncationFn_spec
                   (Hmac.hmac_sha1 (JS.bytes_of_string "Jefe")
                                   (JS.bytes_of_string "abc")) _)).
  apply hmac_byte.
Defined.

(** ** Time codes *)

Lemma generateTOTP_shift (now : Z) (secret : string) (window : Z) :
  AdminService.generateTOTP now secret window
  = AdminService.generateTOTP (now + 1000 * window) secret 0.
Proof.
  unfold AdminService.generateTOTP.
  rewrite (Z.mul_comm 1000 window), Z.div_add by lia.
  rewrite Z.add_0_r. reflexivity.
Qed.

Lemma generateTOTP_same_second (now now' : Z) (secret : string)
      (window : Z) :
  now' / 1000 = now / 1000 ->
  AdminService.generateTOTP now' secret window
  = AdminService.generateTOTP now secret window.
Proof. unfold AdminService.generateTOTP. intros ->. reflexivity. Qed.

(** X3.  The time code depends on the clock only through the whole second,
    and a window offset is a shift of the clock by that many seconds: the
    code for window [w] at an instant is the window-0 code [w] seconds
    later. *)
Theorem generateTOTP_window_shift (now : Z) (secret : string) (window : Z) :
  AdminService.generateTOTP now secret window
  = AdminService.generateTOTP (now + 1000 * window) secret 0
  /\ forall now',
       now' / 1000 = now / 1000 ->
       AdminService.generateTOTP now' secret window
       = AdminService.generateTOTP now secret window.
Proof.
  split; [apply generateTOTP_shift |].
  intros now'. apply generateTOTP_same_second.
Qed.

Lemma generateTOTP_window_shift_witness :
  AdminService.generateTOTP 1700000000999 "s199991234567890123" 300
  = AdminService.generateTOTP 1700000000000 "s199991234567890123" 300.
Proof.
  refine (proj2 (generateTOTP_window_shift
                   1700000000000 "s199991234567890123" 300)
                1700000000999 _).
  reflexivity.
Defined.

(** ** The issued payload *)

Lemma digit_is_digit (d : Z) :
  0 <= d < 10 -> is_digit (JSString.digit d) = true.
Proof.
  intros Hd.
  assert (H : d = 0 \/ d = 1 \/ d = 2 \/ d = 3 \/ d = 4 \/ d = 5
              \/ d = 6 \/ d = 7 \/ d = 8 \/ d = 9) by lia.
  repeat (destruct H as [-> | H]; [reflexivity |]). subst d. reflexivity.
Qed.

Lemma render_digits (n : Z) : all_chars is_digit (Rfc4226.render n) = true.
Proof.
  unfold Rfc4226.render. cbn [all_chars].
  rewrite !digit_is_digit by (apply Z.mod_pos_bound; lia). reflexivity.
Qed.

Lemma length_append (s t : string) :
  String.length (s ++ t) = (String.length s + String.length t)%nat.
Proof.
  induction s as [| c s IH]; [reflexivity |].
  cbn [String.append String.length]. rewrite IH. reflexivity.
Qed.

(** X4.  A payload issued by [getDoorLockInput] carries a code of exactly
    six decimal digits, which is the window-0 code of the instant 300
    seconds later; its encoding is 26 characters longer than the staff ID;
    and two issues to the same staff member within one second give the same
    payload. *)
Theorem getDoorLockInput_payload_format (staff : list Staff.t) (now : Z)
        (staffID : string) (input : DoorLockCodeEncodeInput) :
  AdminService.getDoorLockInput staff now staffID = inr input ->
  String.length (secret input) = 6%nat
  /\ all_chars is_digit (secret input) = true
  /\ secret input
     = Rfc4226.render
         (AdminService.generateTOTP
            (now + 300000) (staffID ++ "9999" ++ "1234567890123") 0)
  /\ String.length (AdminService.encode input)
     = (String.length staffID + 26)%nat
  /\ forall now',
       now' / 1000 = now / 1000 ->
       AdminService.getDoorLockInput staff now' staffID = inr input.
Proof.
  intros Hissue.
  pose proof (getDoorLockInput_payload _ _ _ _ Hissue) as ->.
  cbn [secret]. split; [apply render_length |].
  split; [apply render_digits |]. split; [| split].
  - rewrite (generateTOTP_shift now _ 300). reflexivity.
  - unfold AdminService.encode. cbn [userID roomID nationalID secret].
    rewrite !length_append, render_length. cbn [String.length]. lia.
  - intros now' Hsame. unfold AdminService.getDoorLockInput in *.
    destruct (AdminRepository.findStaffById staff staffID); [| discriminate].
    rewrite !padStart_toString_render by apply generateTOTP_range.
    rewrite (generateTOTP_same_second now now' _ 300 Hsame).
    reflexivity.
Qed.

Lemma getDoorLockInput_payload_format_witness :
  String.length (secret payload_s1) = 6%nat
  /\ all_chars is_digit (secret payload_s1) = true
  /\ secret payload_s1
     = Rfc4226.render
         (AdminService.generateTOTP
            (1700000000000 + 300000) ("s1" ++ "9999" ++ "1234567890123") 0)
  /\ String.length (AdminService.encode payload_s1)
     = (String.length "s1" + 26)%nat
  /\ forall now',
       now' / 1000 = 1700000000000 / 1000 ->
       AdminService.getDoorLockInput staff_s1 now' "s1" = inr payload_s1.
Proof.
  refine (getDoorLockInput_payload_format
            staff_s1 1700000000000 "s1" payload_s1 _).
  vm_compute. reflexivity.
Defined.

(** ** Encoding *)

(** X5.  On payloads whose fields contain no ['|'], [encode] is injective:
    two such payloads with the same encoding are the same payload. *)
Theorem encode_injective (input1 input2 : DoorLockCodeEncodeInput) :
  delimiter_free input1 ->
  delimiter_free input2 ->
  AdminService.encode input1 = AdminService.encode input2 ->
  input1 = input2.
Proof.
  intros H1 H2 Heq.
  pose proof (decode_encode input1 H1) as D1.
  pose proof (decode_encode input2 H2) as D2.
  rewrite Heq, D2 in D1. apply Some_eq in D1. symmetry. exact D1.
Qed.

Lemma encode_injective_witness :
  payload_s1
  = {| userID := "s1"; roomID := "9999";
       nationalID := "1234567890123"; secret := "388945" |}.
Proof.
  refine (encode_injective payload_s1 _ _ _ _).
  - unfold delimiter_free. simpl. auto.
  - unfold delimiter_free. simpl. auto.
  - reflexivity.
Defined.

(** ** What the key ignores *)

Lemma sextets_after_padding (p t1 t2 : string) :
  Base64.sextets (JS.bytes_of_string (p ++ String "=" t1))
  = Base64.sextets (JS.bytes_of_string (p ++ String "=" t2)).
Proof.
  induction p as [| c p IH]; [reflexivity |].
  cbn [String.append JS.bytes_of_string Base64.sextets].
  destruct (_ =? 61); [reflexivity |].
  rewrite IH. reflexivity.
Qed.

Lemma sextets_skipped (p t : string) (c : ascii) :
  skipped_by_base64 c ->
  Base64.sextets (JS.bytes_of_string (p ++ String c t))
  = Base64.sextets (JS.bytes_of_string (p ++ t)).
Proof.
  intros [Hnone Hpad]. induction p as [| c' p IH].
  - cbn [String.append JS.bytes_of_string Base64.sextets].
    rewrite Hnone. apply Z.eqb_neq in Hpad. rewrite Hpad. reflexivity.
  - cbn [String.append JS.bytes_of_string Base64.sextets].
    rewrite IH. reflexivity.
Qed.

Lemma append_assoc (s t u : string) :
  ((s ++ t) ++ u = s ++ (t ++ u))%string.
Proof.
  induction s as [| c s IH]; [reflexivity |].
  cbn [String.append]. rewrite IH. reflexivity.
Qed.

(** X6.  On secrets of 8-bit characters (every code unit below 256, as
    the strings of this development are), the key of [generateHOTP] is read
    leniently: whatever follows the first ['='] of the secret does not
    reach the key, and an 8-bit character outside the base64 alphabets,
    other than ['='], is skipped.  So two such secrets that agree up to a
    ['='], or that differ by such a character, give the same code on every
    counter; in particular two staff IDs of 8-bit characters that agree up
    to a ['='] are issued the same code at the same instant. *)
Theorem generateHOTP_lenient_key (p t1 t2 : string) (counter : Z) :
  AdminService.generateHOTP (p ++ String "=" t1) counter
  = AdminService.generateHOTP (p ++ String "=" t2) counter
  /\ (forall c,
         skipped_by_base64 c ->
         AdminService.generateHOTP (p ++ String c t1) counter
         = AdminService.generateHOTP (p ++ t1) counter)
  /\ (forall staff now input1 input2,
         AdminService.getDoorLockInput staff now (p ++ String "=" t1)
         = inr input1 ->
         AdminService.getDoorLockInput staff now (p ++ String "=" t2)
         = inr input2 ->
         secret input1 = secret input2).
Proof.
  split; [| split].
  - unfold AdminService.generateHOTP, Base64.decode.
    rewrite (sextets_after_padding p t1 t2). reflexivity.
  - intros c Hc. unfold AdminService.generateHOTP, Base64.decode.
    rewrite (sextets_skipped p t1 c Hc). reflexivity.
  - intros staff now input1 input2 H1 H2.
    rewrite (getDoorLockInput_payload _ _ _ _ H1),
      (getDoorLockInput_payload _ _ _ _ H2).
    cbn [secret]. f_equal.
    unfold AdminService.generateTOTP, AdminService.generateHOTP,
      Base64.decode.
    assert (E : forall t u : string,
               ((p ++ String "=" t) ++ u = p ++ String "=" (t ++ u))%string)
      by (intros t u; rewrite append_assoc; reflexivity).
    rewrite !E.
    rewrite (sextets_after_padding
               p (t1 ++ "9999" ++ "1234567890123")
               (t2 ++ "9999" ++ "1234567890123")).
    reflexivity.
Qed.

Lemma generateHOTP_lenient_key_witness :
  AdminService.generateHOTP ("s" ++ String " " "1") 1700000300
  = AdminService.generateHOTP ("s" ++ "1") 1700000300
  /\ secret payload_a1 = secret payload_a2.
Proof.
  split.
  - refine (proj1 (proj2 (generateHOTP_lenient_key "s" "1" "1" 1700000300))
                  " "%char _).
    split; [reflexivity | discriminate].
  - refine (proj2 (proj2 (generateHOTP_lenient_key "a" "1" "2" 0))
                  staff_a 1700000000000 payload_a1 payload_a2 _ _).
    + vm_compute. reflexivity.
    + vm_compute. reflexivity.
Defined.

(** ** Staff accounts *)

Lemma find_app_miss {A : Type} (f : A -> bool) (l : list A) (x : A) :
  f x = false -> find f (l ++ [x]) = find f l.
Proof.
  intros Hx. induction l as [| y l IH]; cbn [app find].
  - rewrite Hx. reflexivity.
  - destruct (f y); [reflexivity | exact IH].
Qed.

Lemma find_app_fresh {A : Type} (f : A -> bool) (l : list A) (x : A) :
  (forall y, In y l -> f y = false) -> f x = true ->
  find f (l ++ [x]) = Some x.
Proof.
  intros Hl Hx. induction l as [| y l IH]; cbn [app find].
  - rewrite Hx. reflexivity.
  - rewrite (Hl y (or_introl eq_refl)). apply IH.
    intros z Hz. apply Hl. right. exact Hz.
Qed.

Section StaffAccounts.

Variable hash : string -> string -> Z -> string.
Variable compare : string -> string -> bool.

Local Abbreviation registerStaff := (AdminStaffService.registerStaff hash).
Local Abbreviation loginStaff := (AdminStaffService.loginStaff compare).

(** X7.  [loginStaff] fails in one way only: an unknown email and a wrong
    password give the same error, ["Wrong email or password."].  It
    succeeds exactly when the first staff row with that email has a hash
    the password matches, and then returns that row without its
    password. *)
Theorem loginStaff_spec (input : LoginInput.t) (staff : list Staff.t) :
  (forall e,
      loginStaff input staff = inl e ->
      e = BadRequestError "Wrong email or password.")
  /\ (forall details,
         loginStaff input staff = inr details
         <-> exists row,
               AdminStaffRepository.findStaff staff (LoginInput.email input)
               = Some row
               /\ compare (LoginInput.password input) (Staff.password row)
                  = true
               /\ details = AdminStaffService.omitPassword row).
Proof.
  unfold AdminStaffService.loginStaff.
  destruct (AdminStaffRepository.findStaff staff (LoginInput.email input))
    as [row |].
  - destruct (compare (LoginInput.password input) (Staff.password row))
      eqn:Hc; cbn [negb].
    + split; [discriminate |]. intros details. split.
      * intros H. injection H as <-. exists row. auto.
      * intros [row' (Hrow & _ & ->)]. injection Hrow as <-. reflexivity.
    + split; [intros e H; injection H as <-; reflexivity |].
      intros details. split; [discriminate |].
      intros [row' (Hrow & Hc' & _)]. injection Hrow as <-. congruence.
  - split; [intros e H; injection H as <-; reflexivity |].
    intros details. split; [discriminate |].
    intros [row' (Hrow & _)]. discriminate.
Qed.

(** X8.  After [registerStaff], provided the library accepts a password
    against its own hash and neither the email nor the assigned id was in
    the table: the stored password is the hash, logging in with the same
    email and password succeeds with the details [registerStaff] returned,
    [getStaff] on the new id returns them too, and every login under
    another email answers as before. *)
Theorem registerStaff_then_login (salt newId : string)
        (input : CreateStaff.t) (staff : list Staff.t) :
  (forall s, compare s (hash salt s 10) = true) ->
  (forall row, In row staff -> Staff.email row <> CreateStaff.email input) ->
  (forall row, In row staff -> Staff.id row <> newId) ->
  snd (registerStaff salt newId input staff)
  = staff ++ [ {| Staff.id := newId;
                  Staff.email := CreateStaff.email input;
                  Staff.password :=
                    hash salt (CreateStaff.password input) 10 |} ]
  /\ loginStaff {| LoginInput.email := CreateStaff.email input;
                   LoginInput.password := CreateStaff.password input |}
                (snd (registerStaff salt newId input staff))
     = inr (fst (registerStaff salt newId input staff))
  /\ AdminStaffService.getStaff
       newId (snd (registerStaff salt newId input staff))
     = inr (fst (registerStaff salt newId input staff))
  /\ (forall other,
         LoginInput.email other <> CreateStaff.email input ->
         loginStaff other (snd (registerStaff salt newId input staff))
         = loginStaff other staff).
Proof.
  intros Hbcrypt Hemail Hid.
  unfold AdminStaffService.registerStaff, AdminStaffRepository.createStaff.
  cbn [fst snd CreateStaff.email CreateStaff.password].
  split; [reflexivity |]. split; [| split].
  - unfold AdminStaffService.loginStaff, AdminStaffRepository.findStaff.
    cbn [LoginInput.email LoginInput.password].
    rewrite find_app_fresh.
    + cbn [Staff.password]. rewrite Hbcrypt. reflexivity.
    + intros row Hrow. apply String.eqb_neq. exact (Hemail row Hrow).
    + cbn [Staff.email]. apply String.eqb_refl.
  - unfold AdminStaffService.getStaff, AdminRepository.findStaffById.
    rewrite find_app_fresh.
    + reflexivity.
    + intros row Hrow. apply String.eqb_neq. exact (Hid row Hrow).
    + cbn [Staff.id]. apply String.eqb_refl.
  - intros other Hother.
    unfold AdminStaffService.loginStaff, AdminStaffRepository.findStaff.
    rewrite find_app_miss; [reflexivity |].
    cbn [Staff.email]. apply String.eqb_neq. congruence.
Qed.

End StaffAccounts.

Lemma loginStaff_spec_witness :
  BadRequestError "Wrong email or password."
  = BadRequestError "Wrong email or password."
  /\ AdminStaffService.loginStaff
       SampleBcrypt.compare
       {| LoginInput.email := "s3@hotel.example";
          LoginInput.password := "open sesame" |}
       staff_s3
     = inr {| StaffDetails.id := "s3";
              StaffDetails.email := "s3@hotel.example" |}.
Proof.
  split.
  - refine (proj1 (loginStaff_spec
                     SampleBcrypt.compare
                     {| LoginInput.email := "s3@hotel.example";
                        LoginInput.password := "guess" |}
                     staff_s3)
                  (BadRequestError "Wrong email or password.") _).
    reflexivity.
  - refine (proj2 (proj2 (loginStaff_spec
                            SampleBcrypt.compare
                            {| LoginInput.email := "s3@hotel.example";
                               LoginInput.password := "open sesame" |}
                            staff_s3) _) _).
    exists (hd (Staff.Build_t EmptyString EmptyString EmptyString) staff_s3).
    repeat split.
Defined.

Lemma registerStaff_then_login_witness :
  AdminStaffService.loginStaff
    SampleBcrypt.compare
    {| LoginInput.email := "s2@hotel.example";
       LoginInput.password := "correct horse" |}
    (snd (AdminStaffService.registerStaff
            SampleBcrypt.hash "ab" "s2"
            {| CreateStaff.email := "s2@hotel.example";
               CreateStaff.password := "correct horse" |}
            staff_s1))
  = inr (fst (AdminStaffService.registerStaff
                 SampleBcrypt.hash "ab" "s2"
                 {| CreateStaff.email := "s2@hotel.example";
                    CreateStaff.password := "correct horse" |}
                 staff_s1)).
Proof.
  refine (proj1 (proj2 (registerStaff_then_login
                          SampleBcrypt.hash SampleBcrypt.compare "ab" "s2"
                          {| CreateStaff.email := "s2@hotel.example";
                             CreateStaff.password := "correct horse" |}
                          staff_s1 _ _ _))).
  - intros s. unfold SampleBcrypt.compare, SampleBcrypt.hash.
    apply String.eqb_refl.
  - intros row [<- | []]. simpl. discriminate.
  - intros row [<- | []]. simpl. discriminate.
Defined.

(** ** The staff-operated unlock *)

(** X9.  [unlockDoor] leaves the messages already on the channel as they
    are and publishes one ['unlock'] message after them, on the topic
    ['door/'] followed by the room ID; that topic is never the global topic
    [door] of the guest routes, and different rooms get different
    topics. *)
Theorem unlockDoor_room_topic (roomID : string) (mqtt : list App.Message)
        (d : App.Message) :
  removelast (AdminDoor.unlockDoor roomID mqtt) = mqtt
  /\ List.length (AdminDoor.unlockDoor roomID mqtt) = S (List.length mqtt)
  /\ fst (last (AdminDoor.unlockDoor roomID mqtt) d)
     = ("door/" ++ roomID)%string
  /\ snd (last (AdminDoor.unlockDoor roomID mqtt) d) = "unlock"%string
  /\ fst (last (AdminDoor.unlockDoor roomID mqtt) d) <> "door"%string
  /\ forall roomID' mqtt',
       roomID' <> roomID ->
       fst (last (AdminDoor.unlockDoor roomID' mqtt') d)
       <> fst (last (AdminDoor.unlockDoor roomID mqtt) d).
Proof.
  unfold AdminDoor.unlockDoor. split; [apply removelast_last |].
  split; [rewrite length_app; cbn [List.length]; lia |].
  split; [rewrite last_last; reflexivity |].
  split; [rewrite last_last; reflexivity |]. split.
  - rewrite last_last. cbn [fst String.append]. discriminate.
  - intros roomID' mqtt' Hne. rewrite !last_last. cbn [fst String.append].
    intros H. injection H as H. exact (Hne H).
Qed.

Lemma unlockDoor_room_topic_witness :
  fst (last (AdminDoor.unlockDoor "102" []) (EmptyString, EmptyString))
  <> fst (last (AdminDoor.unlockDoor "101" []) (EmptyString, EmptyString)).
Proof.
  refine (proj2 (proj2 (proj2 (proj2 (proj2 (unlockDoor_room_topic
                                               "101" []
                                               (EmptyString, EmptyString))))))
                "102"%string [] _).
  discriminate.
Defined.

(** ** The owner check leaves the database alone *)

Lemma checkIsReservationOwner_frame (db : Database)
      (guestID id : string) :
  snd (RoomService.checkIsReservationOwner guestID id db) = db.
Proof.
  unfold RoomService.checkIsReservationOwner. rewrite bind_query.
  destruct (RoomRepository.findReservationById db id); reflexivity.
Qed.

(** ** The two evaluators agree *)

Lemma checkIsReservationOwner_found (db : Database) (guestID : string)
      (r : Reservation.t) :
  unique_ids db -> In r (reservations db) ->
  RoomService.checkIsReservationOwner guestID (Reservation.id r) db
  = (inr (String.eqb (Reservation.guest_id r) guestID), db).
Proof.
  intros Hu Hin. unfold RoomService.checkIsReservationOwner.
  rewrite bind_query. unfold RoomRepository.findReservationById.
  rewrite (find_by_id _ r Hu Hin). reflexivity.
Qed.

(** X11.  With reservation IDs a primary key, the yes/no evaluator agrees
    with the list evaluator on every request: when
    [findRoomsThatCanEnter] fails, [hasPermissionToEnterRoom] fails with
    the same error, and when it returns a list of rooms,
    [hasPermissionToEnterRoom] answers whether the room is in that list. *)
Theorem evaluators_agree (db : Database) (guestID email : string)
        (date roomID : Z) :
  unique_ids db ->
  fst (RoomService.hasPermissionToEnterRoom guestID email date roomID db)
  = match fst (RoomService.findRoomsThatCanEnter guestID email date db) with
    | inl e => inl e
    | inr rooms => inr (RoomService.includes rooms roomID)
    end.
Proof.
  intros Hu.
  unfold RoomService.hasPermissionToEnterRoom,
    RoomService.findRoomsThatCanEnter.
  rewrite !bind_query.
  destruct (RoomRepository.findReservationIn db guestID email date)
    as [r |] eqn:Hfind; [| reflexivity].
  assert (Hin : In r (reservations db)).
  { unfold RoomRepository.findReservationIn in Hfind.
    apply find_some in Hfind. tauto. }
  unfold bind at 3.
  rewrite (checkIsReservationOwner_found db guestID r Hu Hin).
  destruct (String.eqb (Reservation.guest_id r) guestID); unfold bind.
  - destruct (RoomService.allRoomsInReservation (Reservation.id r) db)
      as [[e | rooms] db1]; reflexivity.
  - destruct (RoomService.roomShared email (Reservation.id r) db)
      as [[e | room] db1]; [reflexivity |].
    cbn [ret fst RoomService.includes existsb].
    rewrite orb_false_r. reflexivity.
Qed.

Lemma evaluators_agree_witness :
  fst (RoomService.hasPermissionToEnterRoom
         "g2" "friend@example.org" 150 2 hotel_db)
  = match fst (RoomService.findRoomsThatCanEnter
                 "g2" "friend@example.org" 150 hotel_db) with
    | inl e => inl e
    | inr rooms => inr (RoomService.includes rooms 2)
    end.
Proof.
  exact (evaluators_agree hotel_db "g2" "friend@example.org" 150 2
                          hotel_db_unique_ids).
Defined.

(** ** Sharing does not touch other addresses *)

Lemma find_ext_in {A : Type} (f g : A -> bool) (l : list A) :
  (forall x, f x = g x) -> find f l = find g l.
Proof.
  intros H. induction l as [| x l IH]; cbn [find]; [reflexivity |].
  rewrite (H x), IH. reflexivity.
Qed.

Lemma active_with_grant (db : Database) (g : GuestReservationRoom.t)
      (guestID email : string) (date : Z) (r : Reservation.t) :
  GuestReservationRoom.guest_email g <> email ->
  RoomRepository.active (with_grant db g) guestID email date r
  = RoomRepository.active db guestID email date r.
Proof.
  intros Hne. unfold RoomRepository.active.
  cbn [with_grant guest_reservation_rooms].
  rewrite existsb_app. cbn [existsb].
  unfold RoomRepository.grant_matches at 2.
  apply String.eqb_neq in Hne. rewrite Hne. cbn [andb orb].
  rewrite orb_false_r. reflexivity.
Qed.

(** The evaluators read the database through four lookups only. *)
Lemma evaluators_from_lookups (db db' : Database) (guestID email : string)
      (date roomID : Z) :
  RoomRepository.findReservationIn db' guestID email date
  = RoomRepository.findReservationIn db guestID email date ->
  (forall i,
      fst (RoomService.allRoomsInReservation i db')
      = fst (RoomService.allRoomsInReservation i db)) ->
  (forall i,
      fst (RoomService.roomShared email i db')
      = fst (RoomService.roomShared email i db)) ->
  (forall i,
      fst (RoomService.checkIsReservationOwner guestID i db')
      = fst (RoomService.checkIsReservationOwner guestID i db)) ->
  fst (RoomService.hasPermissionToEnterRoom guestID email date roomID db')
  = fst (RoomService.hasPermissionToEnterRoom guestID email date roomID db)
  /\ fst (RoomService.findRoomsThatCanEnter guestID email date db')
     = fst (RoomService.findRoomsThatCanEnter guestID email date db).
Proof.
  intros Hfind Hall Hshared Hown.
  split.
  - unfold RoomService.hasPermissionToEnterRoom.
    rewrite !bind_query, Hfind.
    destruct (RoomRepository.findReservationIn db guestID email date)
      as [r |]; [| reflexivity].
    destruct (String.eqb (Reservation.guest_id r) guestID); unfold bind.
    + specialize (Hall (Reservation.id r)).
      destruct (RoomService.allRoomsInReservation _ db')
        as [[e1 | v1] d1];
        destruct (RoomService.allRoomsInReservation _ db)
        as [[e2 | v2] d2]; cbn [fst ret] in *; congruence.
    + specialize (Hshared (Reservation.id r)).
      destruct (RoomService.roomShared _ _ db')
        as [[e1 | v1] d1];
        destruct (RoomService.roomShared _ _ db)
        as [[e2 | v2] d2]; cbn [fst ret] in *; congruence.
  - unfold RoomService.findRoomsThatCanEnter.
    rewrite !bind_query, Hfind.
    destruct (RoomRepository.findReservationIn db guestID email date)
      as [r |]; [| reflexivity].
    unfold bind at 1 3.
    specialize (Hown (Reservation.id r)).
    pose proof (checkIsReservationOwner_frame
                  db' guestID (Reservation.id r)) as F1.
    pose proof (checkIsReservationOwner_frame
                  db guestID (Reservation.id r)) as F2.
    destruct (RoomService.checkIsReservationOwner _ _ db')
      as [[e1 | b1] d1];
      destruct (RoomService.checkIsReservationOwner _ _ db)
      as [[e2 | b2] d2]; cbn [fst snd] in *; subst; try congruence.
    injection Hown as ->.
    destruct b2.
    + apply Hall.
    + unfold bind. specialize (Hshared (Reservation.id r)).
      destruct (RoomService.roomShared _ _ db')
        as [[e1 | v1] d1];
        destruct (RoomService.roomShared _ _ db)
        as [[e2 | v2] d2]; cbn [fst ret] in *; congruence.
Qed.

Lemma with_grant_other_addresses (db : Database)
      (g : GuestReservationRoom.t) (guestID email : string)
      (date roomID : Z) :
  GuestReservationRoom.guest_email g <> email ->
  fst (RoomService.hasPermissionToEnterRoom
         guestID email date roomID (with_grant db g))
  = fst (RoomService.hasPermissionToEnterRoom guestID email date roomID db)
  /\ fst (RoomService.findRoomsThatCanEnter
            guestID email date (with_grant db g))
     = fst (RoomService.findRoomsThatCanEnter guestID email date db).
Proof.
  intros Hne.
  assert (Hfind : RoomRepository.findReservationIn
                    (with_grant db g) guestID email date
                  = RoomRepository.findReservationIn db guestID email date).
  { unfold RoomRepository.findReservationIn.
    cbn [with_grant reservations]. fold (with_grant db g).
    apply find_ext_in. intros r. apply active_with_grant. exact Hne. }
  assert (Hall : forall i,
             fst (RoomService.allRoomsInReservation i (with_grant db g))
             = fst (RoomService.allRoomsInReservation i db)).
  { intros i. unfold RoomService.allRoomsInReservation.
    rewrite !bind_query. unfold ReservationRepository.getReservation.
    cbn [with_grant reservations].
    destruct (find _ (reservations db)); reflexivity. }
  assert (Hshared : forall i,
             fst (RoomService.roomShared email i (with_grant db g))
             = fst (RoomService.roomShared email i db)).
  { intros i. unfold RoomService.roomShared. rewrite !bind_query.
    unfold RoomRepository.findGuestRoomReservation.
    cbn [with_grant guest_reservation_rooms].
    rewrite find_app_miss.
    - destruct (find _ (guest_reservation_rooms db)); reflexivity.
    - unfold RoomRepository.grant_matches.
      apply String.eqb_neq in Hne. rewrite Hne. reflexivity. }
  assert (Hown : forall i,
             fst (RoomService.checkIsReservationOwner
                    guestID i (with_grant db g))
             = fst (RoomService.checkIsReservationOwner guestID i db)).
  { intros i. unfold RoomService.checkIsReservationOwner.
    rewrite !bind_query. unfold RoomRepository.findReservationById.
    cbn [with_grant reservations].
    destruct (find _ (reservations db)); reflexivity. }
  exact (evaluators_from_lookups db (with_grant db g) guestID email date
                                 roomID Hfind Hall Hshared Hown).
Qed.

Lemma shareRoom_result (db db' : Database) (ownerID email id : string)
      (roomID : Z) (g : GuestReservationRoom.t) :
  RoomService.shareRoom ownerID email id roomID db = (inr g, db') ->
  g = new_grant email id roomID /\ db' = with_grant db g.
Proof.
  unfold RoomService.shareRoom. unfold bind.
  destruct (RoomService.checkIsReservationOwner ownerID id db)
    as [[e | b] db1] eqn:Hown; [discriminate |].
  pose proof (checkIsReservationOwner_frame db ownerID id) as F.
  rewrite Hown in F. cbn [snd] in F. subst db1.
  destruct b; cbn [negb]; [| discriminate].
  unfold RoomRepository.createGuestRoomReservation.
  intros H. injection H as <- <-. split; reflexivity.
Qed.

(** X12.  A grant made to one address does not change what the evaluators
    answer for any other address: after a successful [shareRoom] to
    [email], the permission check and the room list of every requester
    with a different address are what they were before. *)
Theorem shareRoom_other_addresses (db db' : Database)
        (ownerID email id : string) (sharedRoom : Z)
        (g : GuestReservationRoom.t)
        (guestID email' : string) (date roomID : Z) :
  RoomService.shareRoom ownerID email id sharedRoom db = (inr g, db') ->
  email' <> email ->
  fst (RoomService.hasPermissionToEnterRoom guestID email' date roomID db')
  = fst (RoomService.hasPermissionToEnterRoom guestID email' date roomID db)
  /\ fst (RoomService.findRoomsThatCanEnter guestID email' date db')
     = fst (RoomService.findRoomsThatCanEnter guestID email' date db).
Proof.
  intros Hshare Hne.
  destruct (shareRoom_result _ _ _ _ _ _ _ Hshare) as [-> ->].
  apply with_grant_other_addresses.
  cbn [new_grant GuestReservationRoom.guest_email]. congruence.
Qed.

Lemma shareRoom_other_addresses_witness :
  fst (RoomService.hasPermissionToEnterRoom
         "g2" "friend@example.org" 150 2
         (with_grant hotel_db grant_R1_room3))
  = fst (RoomService.hasPermissionToEnterRoom
           "g2" "friend@example.org" 150 2 hotel_db).
Proof.
  refine (proj1 (shareRoom_other_addresses
                   hotel_db (with_grant hotel_db grant_R1_room3)
                   "g1" "guest2@example.org" "R1" 3 grant_R1_room3
                   "g2" "friend@example.org" 150 2 _ _)).
  - reflexivity.
  - discriminate.
Defined.

(** ** What an actuation request publishes *)

Section Actuation.

Variable Request : Type.
Variables isAuthenticated isInRoom isCheckedIn : App.Middleware Request.

Local Abbreviation post :=
  (App.post Request isAuthenticated isInRoom isCheckedIn).
Local Abbreviation passes :=
  (guards_pass Request isAuthenticated isInRoom isCheckedIn).

(** X14.  A request to an actuation route never alters the messages
    already on the channel and adds at most one; the message it adds is the
    command on the global topic [door], so two requests that both pass the
    guards have the same outcome whatever room they name. *)
Theorem actuation_is_global (command : string) (req : Request)
        (db : Database) (mqtt : list App.Message) :
  (App.channel (post command req db mqtt) = mqtt
   \/ App.channel (post command req db mqtt)
      = mqtt ++ [("door"%string, command)])
  /\ forall req',
       passes req db -> passes req' db ->
       post command req' db mqtt = post command req db mqtt.
Proof.
  split.
  - destruct (pass_or_fail Request isAuthenticated isInRoom isCheckedIn
                           req db) as [Hpass | [e Hfail]].
    + right.
      rewrite (post_pass Request isAuthenticated isInRoom isCheckedIn
                         command req db mqtt Hpass).
      reflexivity.
    + left.
      destruct (post_fail Request isAuthenticated isInRoom isCheckedIn
                          command req db mqtt e Hfail) as [n [_ Hn]].
      rewrite Hn. reflexivity.
  - intros req' H H'.
    rewrite (post_pass Request isAuthenticated isInRoom isCheckedIn
                       command req db mqtt H),
      (post_pass Request isAuthenticated isInRoom isCheckedIn
                 command req' db mqtt H').
    reflexivity.
Qed.

End Actuation.

Lemma actuation_is_global_witness :
  SampleGate.post "unlock" other_room_request hotel_db []
  = SampleGate.post "unlock" SampleGate.owner_request hotel_db [].
Proof.
  refine (proj2 (actuation_is_global
                   SampleGate.Request SampleGate.isAuthenticated
                   SampleGate.isInRoom SampleGate.isCheckedIn
                   "unlock" SampleGate.owner_request hotel_db [])
                other_room_request _ _).
  - exists SampleGate.owner_request, SampleGate.owner_request,
      SampleGate.owner_request. repeat split.
  - exists other_room_request, other_room_request,
      other_room_request. repeat split.
Defined.
